(** * GO2 video bridge: frame distribution engine

    A shallow embedding of the four variants of the bridge
    ([tools/go2_video_bridge.py], [_v2], [_v3], [_v4]) and the properties of
    its frame slot, FPS window, session loops, status broadcaster, wire codec
    and start-up path.

    Conventions of the embedding:
    - Python [int] is [Z]; Python [float] is the kernel's binary64 [float];
      [bytes] is [list byte].
    - [time.time()], the capture device, the codec and the transport are the
      environment: their results are inputs of the step functions.
    - A coroutine is the list of the actions it performs on a finite prefix of
      its (infinite) loop, one loop iteration per element of its input. *)

From Stdlib Require Import ZArith List Lia Bool String Sorted.
From Stdlib Require Import Floats Uint63.
From coqutil Require Import Byte Word.LittleEndianList.
From stdpp Require Import base gmap sets.
Import ListNotations.

Set Warnings "-inexact-float,-register-all".
#[local] Open Scope string_scope.
#[local] Open Scope list_scope.
#[local] Open Scope Z_scope.

Abbreviation bytes := (list byte).

(** ** Python built-ins used by the bridge *)

Module Py.

(** [float(n)] for a small non-negative [int] (a window length). *)
Definition float_of_nat (n : nat) : float :=
  PrimFloat.of_uint63 (Uint63.of_Z (Z.of_nat n)).

(** [collections.deque(maxlen=n).append(x)]: when the deque is full the
    leftmost element is discarded; a deque of capacity 0 stays empty. *)
Definition deque_append {A} (maxlen : nat) (d : list A) (x : A) : list A :=
  match maxlen with
  | O => []
  | _ => if (length d <? maxlen)%nat then d ++ [x] else tl d ++ [x]
  end.

(** [d[0]] and [d[-1]] of a deque of floats that is known to be non-empty. *)
Definition first (d : list float) : float := hd 0%float d.
Definition newest (d : list float) : float := List.last d 0%float.

(** Truthiness of an [Optional[bytes]]: [None] and [b''] are falsy. *)
Definition truthy (b : option bytes) : bool :=
  match b with
  | Some (_ :: _) => true
  | _ => false
  end.

End Py.

(** ** Shared state

    [class VideoState].  The four variants declare the same object with a
    varying set of attributes: v1 has no [width]/[height], only v3 has
    [new_frame_event], v4 has no [fps]/[connected].  One record carries them
    all; an attribute a variant does not have keeps its initial value there.
    The [lock] attribute is not data: its use is recorded by the [Acquire] and
    [Release] actions of the coroutines below. *)

Record VideoState := mkVideoState {
  latest_frame : option bytes;
  frame_id : Z;
  timestamp : float;
  fps : float;
  connected : bool;
  frame_times : list float;
  width : Z;
  height : Z;
  new_frame_event : bool
}.

(** [VideoState()] *)
Definition video_state0 : VideoState :=
  {| latest_frame := None; frame_id := 0; timestamp := 0%float; fps := 0%float;
     connected := false; frame_times := []; width := 0; height := 0;
     new_frame_event := false |}.

Definition window_size : nat := 30.

(** The FPS bookkeeping that v1, v2 and v3 run right after appending to
    [frame_times]:
<<
    if len(frame_times) >= 2:
        duration = frame_times[-1] - frame_times[0]
        if duration > 0:
            fps = (len(frame_times) - 1) / duration
>>
    [old] is the value of [video_state.fps] before the statement. *)
Definition refresh_fps (times : list float) (old : float) : float :=
  if (2 <=? length times)%nat then
    let duration := (Py.newest times - Py.first times)%float in
    if (0 <? duration)%float
    then (Py.float_of_nat (length times - 1) / duration)%float
    else old
  else old.

(** ** Wire codec: [struct.pack('<I d f', frame_id, timestamp, fps)] *)

Inductive exn :=
| StructError          (* struct.error: argument out of range *)
| OverflowError        (* float too large to pack with f format *)
| TransportError.      (* any exception of the transport but ConnectionClosed *)

Module Struct.

(** The IEEE-754 interchange encoding of a float given in Stdlib's
    [spec_float] form, for a format with [mw] explicit mantissa bits and [ew]
    exponent bits.  [emin] is the exponent of the subnormals. *)
Definition bits_of_spec (mw ew emin : Z) (x : spec_float) : Z :=
  let sign_bit (s : bool) := if s then 2 ^ (mw + ew) else 0 in
  let all_ones := 2 ^ ew - 1 in
  match x with
  | S754_zero s => sign_bit s
  | S754_infinity s => sign_bit s + all_ones * 2 ^ mw
  | S754_nan => all_ones * 2 ^ mw + 2 ^ (mw - 1)
  | S754_finite s m e =>
      if Z.pos m <? 2 ^ mw
      then sign_bit s + Z.pos m
      else sign_bit s + (e - emin + 1) * 2 ^ mw + (Z.pos m - 2 ^ mw)
  end.

Definition spec_of_bits (mw ew emin : Z) (bits : Z) : spec_float :=
  let s := Z.testbit bits (mw + ew) in
  let biased := (bits / 2 ^ mw) mod 2 ^ ew in
  let frac := bits mod 2 ^ mw in
  if biased =? 0 then
    match frac with
    | Z.pos m => S754_finite s m emin
    | _ => S754_zero s
    end
  else if biased =? 2 ^ ew - 1 then
    if frac =? 0 then S754_infinity s else S754_nan
  else
    match frac + 2 ^ mw with
    | Z.pos m => S754_finite s m (biased + emin - 1)
    | _ => S754_nan
    end.

(** binary64: 52 + 11 bits, subnormal exponent -1074. *)
Definition double_bits (x : float) : Z := bits_of_spec 52 11 (-1074) (Prim2SF x).
Definition double_of_bits (b : Z) : float := SF2Prim (spec_of_bits 52 11 (-1074) b).

(** The C conversion [(float)x]: round to nearest even into binary32
    (precision 24, emax 128). *)
Definition to_single (x : float) : spec_float :=
  match Prim2SF x with
  | S754_finite s m e => binary_round 24 128 s m e
  | other => other
  end.

(** binary32: 23 + 8 bits, subnormal exponent -149. *)
Definition single_bits (x : spec_float) : Z := bits_of_spec 23 8 (-149) x.
Definition single_of_bits (b : Z) : float := SF2Prim (spec_of_bits 23 8 (-149) b).

(** Format [I] with byte order [<]: four bytes, or [struct.error] outside
    [0, 2^32). *)
Definition pack_I (x : Z) : exn + bytes :=
  if (0 <=? x) && (x <=? 4294967295) then inr (le_split 4 x) else inl StructError.

(** Format [d]: eight bytes. *)
Definition pack_d (x : float) : exn + bytes := inr (le_split 8 (double_bits x)).

(** Format [f]: four bytes; a finite double that overflows binary32 is
    refused. *)
Definition pack_f (x : float) : exn + bytes :=
  match Prim2SF x, to_single x with
  | S754_finite _ _ _, S754_infinity _ => inl OverflowError
  | _, y => inr (le_split 4 (single_bits y))
  end.

(** [struct.pack('<I d f', a, b, c)]; with [<] there is no padding and the
    blanks of the format are ignored. *)
Definition pack_Idf (a : Z) (b c : float) : exn + bytes :=
  match pack_I a with
  | inl e => inl e
  | inr ba =>
      match pack_d b with
      | inl e => inl e
      | inr bb =>
          match pack_f c with
          | inl e => inl e
          | inr bc => inr (ba ++ bb ++ bc)
          end
      end
  end.

Definition header_size : nat := 16.

(** [struct.unpack('<I d f', header)], the library's inverse reading of the
    same format.  The bridge itself never decodes (its consumers are not
    among the sources); this is what a reader of the header layout gets from
    the first 16 bytes of a frame message. *)
Definition unpack_Idf (header : bytes) : option (Z * float * float) :=
  if (length header =? header_size)%nat then
    Some (le_combine (firstn 4 header),
          double_of_bits (le_combine (firstn 8 (skipn 4 header))),
          single_of_bits (le_combine (skipn 12 header)))
  else None.

End Struct.

(** ** Messages *)

(** The dictionaries handed to [json.dumps].  Two library calls are kept
    symbolic: [JRound1 x] is the number [round(x, 1)] and [JBase64 b] is the
    text [base64.b64encode(b).decode(...)]. *)
Inductive json :=
| JBool (b : bool)
| JInt (z : Z)
| JFloat (x : float)
| JRound1 (x : float)
| JStr (s : string)
| JBase64 (b : bytes)
| JObj (fields : list (string * json)).

(** What goes through [websocket.send]: a text message (the [json.dumps] of
    the value) or a binary one. *)
Inductive message :=
| Text (j : json)
| Binary (b : bytes).

Fixpoint field (key : string) (fields : list (string * json)) : option json :=
  match fields with
  | [] => None
  | (k, v) :: rest => if String.eqb k key then Some v else field key rest
  end.

Definition has_type (t : string) (m : message) : bool :=
  match m with
  | Text (JObj fields) =>
      match field "type" fields with
      | Some (JStr s) => String.eqb s t
      | _ => false
      end
  | _ => false
  end.

Definition is_status (m : message) : bool := has_type "status" m.

(** The frame id a message carries, when it is a frame message: the
    ["frameId"] of a JSON frame, the first header field of a binary one. *)
Definition frame_id_of (m : message) : option Z :=
  match m with
  | Text (JObj fields) =>
      if has_type "frame" m then
        match field "frameId" fields with
        | Some (JInt z) => Some z
        | _ => None
        end
      else None
  | Text _ => None
  | Binary b =>
      match Struct.unpack_Idf (firstn Struct.header_size b) with
      | Some (fid, _, _) => Some fid
      | None => None
      end
  end.

Definition is_frame (m : message) : bool :=
  match frame_id_of m with Some _ => true | None => false end.

(** What a callback of the video source reports back to GStreamer; [FlowRaised]
    stands for an exception that leaves the callback. *)
Inductive FlowReturn := FlowOK | FlowERROR | FlowRaised.

(** ** Coroutines of the serving domain *)

(** A connection is known by its identity; [connected_clients] is a set of
    them. *)
Abbreviation websocket := positive.

(** How an [await websocket.send(...)] ends: normally, with
    [websockets.exceptions.ConnectionClosed], or with another exception. *)
Inductive send_result := Delivered | ConnectionClosed | Failed.

(** What a coroutine does, in program order.  [Acquire]/[Release] are the
    entry and exit of [with video_state.lock:]; [Sleep] is
    [await asyncio.sleep]; [Send] is a send on a connection together with its
    outcome; [Raise] is an exception that leaves the coroutine. *)
Inductive action :=
| Add (ws : websocket)
| Discard (ws : websocket)
| Acquire
| Release
| Sleep (seconds : float)
| Send (ws : websocket) (m : message) (r : send_result)
| Raise (e : exn).

(** One turn of a session loop: the shared state as the turn reads it, and
    the outcome of the send the turn may attempt. *)
Record poll := { seen : VideoState; outcome : send_result }.

(** Every suspension and every send of the trace happens with the lock
    released; [held] tells whether the lock is held at the start. *)
Fixpoint suspends_unlocked (held : bool) (tr : list action) : bool :=
  match tr with
  | [] => true
  | Acquire :: rest => suspends_unlocked true rest
  | Release :: rest => suspends_unlocked false rest
  | Sleep _ :: rest => negb held && suspends_unlocked held rest
  | Send _ _ _ :: rest => negb held && suspends_unlocked held rest
  | _ :: rest => suspends_unlocked held rest
  end.

(** The messages a trace puts on the transport of [ws], in order. *)
Fixpoint sends_to (ws : websocket) (tr : list action) : list message :=
  match tr with
  | [] => []
  | Send c m _ :: rest =>
      if Pos.eqb c ws then m :: sends_to ws rest else sends_to ws rest
  | _ :: rest => sends_to ws rest
  end.

(** The messages that reached [ws]. *)
Fixpoint delivered_to (ws : websocket) (tr : list action) : list message :=
  match tr with
  | [] => []
  | Send c m Delivered :: rest =>
      if Pos.eqb c ws then m :: delivered_to ws rest else delivered_to ws rest
  | _ :: rest => delivered_to ws rest
  end.

(** The ids of the frame messages among [ms], in order. *)
Fixpoint frame_ids (ms : list message) : list Z :=
  match ms with
  | [] => []
  | m :: rest =>
      match frame_id_of m with
      | Some i => i :: frame_ids rest
      | None => frame_ids rest
      end
  end.

Definition sent_ids (ws : websocket) (tr : list action) : list Z :=
  frame_ids (sends_to ws tr).

(** One period of a status broadcaster: the shared state and the registry as
    the tick reads them, and how a send to each connection would end. *)
Record tick := {
  at_tick : VideoState;
  registry : gset websocket;
  result : websocket -> send_result
}.

(** ** Process start-up *)

Inductive process_event :=
| Log (line : string)            (* print *)
| StartThread (name : string)    (* threading.Thread(...).start() *)
| Pause (seconds : float)        (* time.sleep *)
| Handlers                       (* signal.signal for SIGINT and SIGTERM *)
| Serve (port : Z)               (* asyncio.run of the server coroutine *)
| Exit (code : Z).               (* sys.exit *)

(** How [GO2VideoReceiver.start] meets GStreamer: the text of the
    [GLib.Error] of [Gst.parse_launch] if it raises, and whether
    [set_state(PLAYING)] answers [FAILURE]. *)
Record gst_env := { launch_error : option string; state_change_failure : bool }.

Definition nl : string := String (Ascii.ascii_of_nat 10) EmptyString.

Definition exits_with (code : Z) (tr : list process_event) : Prop :=
  List.last tr (Log "") = Exit code.

Definition serves (tr : list process_event) : Prop :=
  exists port, In (Serve port) tr.

Definition is_log (e : process_event) : bool :=
  match e with Log _ => true | _ => false end.

(** ** The four variants *)

Module V1.

Section Capture.
Context {image : Type}.
(** [cv2.imencode('.jpg', frame, [IMWRITE_JPEG_QUALITY, q])]: the codec,
    returning the success flag and the buffer. *)
Variable imencode : image -> Z -> bool * bytes.

(** One turn of [while True] in [video_capture_thread]: what [cap.read()]
    returned and what [time.time()] would return. *)
Record capture := { ret : bool; frame : option image; now : float }.

(** The body of [with video_state.lock:]. *)
Definition store (jpeg_bytes : bytes) (current_time : float) (st : VideoState)
  : VideoState :=
  let times := Py.deque_append window_size (frame_times st) current_time in
  {| latest_frame := Some jpeg_bytes;
     frame_id := frame_id st + 1;
     timestamp := current_time;
     fps := refresh_fps times (fps st);
     connected := connected st;
     frame_times := times;
     width := width st; height := height st;
     new_frame_event := new_frame_event st |}.

Definition capture_iteration (jpeg_quality : Z) (c : capture) (st : VideoState)
  : VideoState :=
  match ret c, frame c with
  | true, Some f =>
      let (success, jpeg_buffer) := imencode f jpeg_quality in
      if success then store jpeg_buffer (now c) st
      else st                         (* continue *)
  | _, _ => st                        (* time.sleep(0.01); continue *)
  end.

(** Does this turn of the loop publish a frame? *)
Definition produces (jpeg_quality : Z) (c : capture) : bool :=
  match ret c, frame c with
  | true, Some f => fst (imencode f jpeg_quality)
  | _, _ => false
  end.

Definition capture_loop (jpeg_quality : Z) (cs : list capture) (st : VideoState)
  : VideoState :=
  fold_left (fun s c => capture_iteration jpeg_quality c s) cs st.

Definition set_connected (b : bool) (st : VideoState) : VideoState :=
  {| latest_frame := latest_frame st; frame_id := frame_id st;
     timestamp := timestamp st; fps := fps st; connected := b;
     frame_times := frame_times st; width := width st; height := height st;
     new_frame_event := new_frame_event st |}.

(** [video_capture_thread]: [opened] is [cap.isOpened()]. *)
Definition video_capture_thread (jpeg_quality : Z) (opened : bool)
    (cs : list capture) (st : VideoState) : VideoState :=
  if opened then capture_loop jpeg_quality cs (set_connected true st)
  else set_connected false st.
End Capture.

(** The first message of [handle_client]. *)
Definition initial_status (is_connected : bool) : message :=
  Text (JObj [("type", JStr "status");
              ("connected", JBool is_connected);
              ("message", JStr "Connected to GO2 video bridge")]).

Definition frame_message (st : VideoState) (frame_data : bytes) : message :=
  Text (JObj [("type", JStr "frame");
              ("frameId", JInt (frame_id st));
              ("timestamp", JFloat (timestamp st));
              ("fps", JRound1 (fps st));
              ("size", JInt (Z.of_nat (length frame_data)));
              ("data", JBase64 frame_data)]).

(** How [handle_client] ends after a send that did not go through:
    [ConnectionClosed] is caught, anything else leaves the coroutine; the
    [finally] clause runs in both cases. *)
Definition closing (ws : websocket) (r : send_result) : list action :=
  match r with
  | ConnectionClosed => [Discard ws]
  | _ => [Discard ws; Raise TransportError]
  end.

(** [while True] of [handle_client], with the current [last_frame_id]. *)
Fixpoint session_loop (ws : websocket) (last_frame_id : Z) (polls : list poll)
  : list action :=
  match polls with
  | [] => []
  | p :: rest =>
      let st := seen p in
      Acquire :: Release ::
      match (last_frame_id <? frame_id st), latest_frame st with
      | true, Some frame_data =>
          Send ws (frame_message st frame_data) (outcome p) ::
          match outcome p with
          | Delivered => Sleep 0.033 :: session_loop ws (frame_id st) rest
          | r => closing ws r
          end
      | _, _ => Sleep 0.033 :: session_loop ws last_frame_id rest
      end
  end.

(** [handle_client(websocket)]: [is_connected] is [video_state.connected] as
    read for the initial status, [r0] the outcome of sending it. *)
Definition handle_client (ws : websocket) (is_connected : bool) (r0 : send_result)
    (polls : list poll) : list action :=
  Add ws :: Send ws (initial_status is_connected) r0 ::
  match r0 with
  | Delivered => session_loop ws (-1) polls
  | r => closing ws r
  end.

Definition status_message (st : VideoState) (clients : gset websocket) : message :=
  Text (JObj [("type", JStr "status");
              ("connected", JBool (connected st));
              ("fps", JRound1 (fps st));
              ("clients", JInt (Z.of_nat (size clients)))]).

(** [websockets.broadcast(connections, message)]: the library writes the
    message to each connection of the set in turn, without suspending and
    without raising when a write fails. *)
Definition broadcast (connections : gset websocket) (m : message)
    (res : websocket -> send_result) : list action :=
  map (fun c => Send c m (res c)) (elements connections).

Definition broadcast_tick (t : tick) : list action :=
  (if bool_decide (registry t = ∅) then []
   else broadcast (registry t) (status_message (at_tick t) (registry t)) (result t))
  ++ [Sleep 1.0].

Definition broadcast_status (ticks : list tick) : list action :=
  concat (map broadcast_tick ticks).

(** What [video_capture_thread] prints on its way to the capture loop. *)
Definition capture_log (pipeline : string) (opened : bool) : list process_event :=
  Log ("[VideoCapture] Starting with pipeline:" ++ nl ++ pipeline)%string ::
  if opened then [Log "[VideoCapture] Connected to GO2 video stream"]
  else [Log "[VideoCapture] ERROR: Failed to open VideoCapture";
        Log "请确保：";
        Log "  1. OpenCV 编译时启用了 WITH_GSTREAMER";
        Log "  2. 已安装 gstreamer1.0-plugins-bad";
        Log "  3. 网络接口名称正确"].

(** [for _ in range(n): if video_state.connected: break; time.sleep(0.1)].
    [connected_at k] is what the [k]-th read of [video_state.connected] by the
    main thread sees; the result carries the number of reads made so far. *)
Fixpoint wait_for_video (n : nat) (k : nat) (connected_at : nat -> bool)
  : list process_event * nat :=
  match n with
  | O => ([], k)
  | S n' =>
      if connected_at k then ([], S k)
      else let (evs, k') := wait_for_video n' (S k) connected_at in
           (Pause 0.1 :: evs, k')
  end.

(** [main()], from the start of the capture thread on. *)
Definition main (port : Z) (connected_at : nat -> bool) : list process_event :=
  let (waiting, k) := wait_for_video 50 0 connected_at in
  StartThread "video_capture_thread" ::
  Log "[Main] Waiting for video stream..." ::
  waiting ++
  (if connected_at k then []
   else [Log "[Main] WARNING: Video not connected yet, but starting WebSocket server anyway"])
  ++ [Serve port].

End V1.

(** The appsink side shared by v2, v3 and v4: a pulled sample with the caps'
    dimensions, whether [buffer.map] succeeded, and the mapped bytes. *)
Record gst_sample := {
  caps_width : Z;
  caps_height : Z;
  map_success : bool;
  map_data : bytes
}.

(** One invocation of [on_new_sample]: the pulled sample ([None] when
    [pull-sample] gave nothing) and the two readings of [time.time()]. *)
Record pull := { sample : option gst_sample; time1 : float; time2 : float }.

Module V2.

Section Receiver.
(** [Image.frombytes("RGB", (w, h), data)] followed by
    [image.save(buf, format='JPEG', quality=q)]; [None] when either
    raises. *)
Variable encode_jpeg : Z -> Z -> bytes -> Z -> option bytes.

Definition store (jpeg_bytes : bytes) (w h : Z) (t1 t2 : float) (st : VideoState)
  : VideoState :=
  let times := Py.deque_append window_size (frame_times st) t2 in
  {| latest_frame := Some jpeg_bytes;
     frame_id := frame_id st + 1;
     timestamp := t1;
     fps := refresh_fps times (fps st);
     connected := true;
     frame_times := times;
     width := w; height := h;
     new_frame_event := new_frame_event st |}.

Definition on_new_sample (jpeg_quality : Z) (p : pull) (st : VideoState)
  : FlowReturn * VideoState :=
  match sample p with
  | None => (FlowERROR, st)
  | Some s =>
      if map_success s then
        match encode_jpeg (caps_width s) (caps_height s) (map_data s) jpeg_quality with
        | Some jpeg_bytes =>
            (FlowOK, store jpeg_bytes (caps_width s) (caps_height s)
                           (time1 p) (time2 p) st)
        | None => (FlowRaised, st)
        end
      else (FlowERROR, st)
  end.

Definition produces (jpeg_quality : Z) (p : pull) : bool :=
  match sample p with
  | Some s =>
      map_success s &&
      match encode_jpeg (caps_width s) (caps_height s) (map_data s) jpeg_quality with
      | Some _ => true
      | None => false
      end
  | None => false
  end.

Definition receive (jpeg_quality : Z) (ps : list pull) (st : VideoState)
  : VideoState :=
  fold_left (fun s p => snd (on_new_sample jpeg_quality p s)) ps st.
End Receiver.

Definition frame_message (st : VideoState) (frame_data : bytes) : message :=
  Text (JObj [("type", JStr "frame");
              ("frameId", JInt (frame_id st));
              ("timestamp", JFloat (timestamp st));
              ("fps", JRound1 (fps st));
              ("size", JInt (Z.of_nat (length frame_data)));
              ("data", JBase64 frame_data)]).

(** [while True] of [handle_client].  The wait for a new frame,
    [await asyncio.sleep(0.01); continue], stands inside the [with] block: the
    block is left, and the lock released, only after the sleep.  Both
    [except] clauses swallow the exception of a failed send. *)
Fixpoint session_loop (ws : websocket) (last_frame_id : Z) (polls : list poll)
  : list action :=
  match polls with
  | [] => []
  | p :: rest =>
      let st := seen p in
      Acquire ::
      match latest_frame st with
      | Some frame_data =>
          if frame_id st =? last_frame_id
          then Sleep 0.01 :: Release :: session_loop ws last_frame_id rest
          else
            Release ::
            Send ws (frame_message st frame_data) (outcome p) ::
            match outcome p with
            | Delivered => Sleep 0.016 :: session_loop ws (frame_id st) rest
            | _ => [Discard ws]
            end
      | None => Sleep 0.01 :: Release :: session_loop ws last_frame_id rest
      end
  end.

Definition handle_client (ws : websocket) (polls : list poll) : list action :=
  Add ws :: session_loop ws (-1) polls.

Definition status_message (st : VideoState) (clients : gset websocket) : message :=
  Text (JObj [("type", JStr "status");
              ("connected", JBool (connected st));
              ("fps", JRound1 (fps st));
              ("width", JInt (width st));
              ("height", JInt (height st));
              ("clients", JInt (Z.of_nat (size clients)))]).

(** One turn of [broadcast_status]: the loop over [list(connected_clients)]
    with its [try: await client.send(message) / except: pass]. *)
Definition broadcast_tick (t : tick) : list action :=
  Sleep 1.0 ::
  if bool_decide (registry t = ∅) then []
  else map (fun client =>
              Send client (status_message (at_tick t) (registry t)) (result t client))
           (elements (registry t)).

Definition broadcast_status (ticks : list tick) : list action :=
  concat (map broadcast_tick ticks).

(** [GO2VideoReceiver.start]. *)
Definition start (pipeline_str : string) (env : gst_env) : bool * list process_event :=
  let shown := Log ("[GStreamer] Pipeline:" ++ nl ++ pipeline_str ++ nl)%string in
  match launch_error env with
  | Some e => (false, [shown; Log ("[GStreamer] Failed to create pipeline: " ++ e)%string])
  | None =>
      if state_change_failure env
      then (false, [shown; Log "[GStreamer] Failed to start pipeline"])
      else (true, [shown; Log "[GStreamer] Pipeline started, waiting for frames..."])
  end.

(** [main()], from the start of the GLib thread on. *)
Definition main (port : Z) (pipeline_str : string) (env : gst_env)
  : list process_event :=
  let (started, logs) := start pipeline_str env in
  StartThread "glib_thread_func" :: Pause 0.5 :: logs ++
  if started then [Handlers; Serve port]
  else [Log "[Main] Failed to start video receiver"; Exit 1].

End V2.

Module V3.

Section Receiver.
(** The TurboJPEG or the PIL encoder, whichever was imported; [None] when
    it raises. *)
Variable encode_jpeg : Z -> Z -> bytes -> Z -> option bytes.

Definition store (jpeg_bytes : bytes) (w h : Z) (t1 t2 : float) (st : VideoState)
  : VideoState :=
  let times := Py.deque_append window_size (frame_times st) t2 in
  {| latest_frame := Some jpeg_bytes;
     frame_id := frame_id st + 1;
     timestamp := t1;
     fps := refresh_fps times (fps st);
     connected := true;
     frame_times := times;
     width := w; height := h;
     new_frame_event := true |}.   (* new_frame_event.set(), after the lock *)

Definition on_new_sample (jpeg_quality : Z) (p : pull) (st : VideoState)
  : FlowReturn * VideoState :=
  match sample p with
  | None => (FlowERROR, st)
  | Some s =>
      if map_success s then
        match encode_jpeg (caps_width s) (caps_height s) (map_data s) jpeg_quality with
        | Some jpeg_bytes =>
            (FlowOK, store jpeg_bytes (caps_width s) (caps_height s)
                           (time1 p) (time2 p) st)
        | None => (FlowRaised, st)
        end
      else (FlowERROR, st)
  end.

Definition produces (jpeg_quality : Z) (p : pull) : bool :=
  match sample p with
  | Some s =>
      map_success s &&
      match encode_jpeg (caps_width s) (caps_height s) (map_data s) jpeg_quality with
      | Some _ => true
      | None => false
      end
  | None => false
  end.

Definition receive (jpeg_quality : Z) (ps : list pull) (st : VideoState)
  : VideoState :=
  fold_left (fun s p => snd (on_new_sample jpeg_quality p s)) ps st.
End Receiver.

(** [while True] of [handle_client]: both waits stand inside the [with]
    block, as in v2.  [struct.pack] runs outside the inner [try]; what it
    raises is caught by the outer [except Exception].  A failed send breaks
    out of the loop. *)
Fixpoint session_loop (ws : websocket) (last_frame_id : Z) (polls : list poll)
  : list action :=
  match polls with
  | [] => []
  | p :: rest =>
      let st := seen p in
      Acquire ::
      match latest_frame st with
      | None => Sleep 0.005 :: Release :: session_loop ws last_frame_id rest
      | Some frame_data =>
          if frame_id st =? last_frame_id
          then Sleep 0.005 :: Release :: session_loop ws last_frame_id rest
          else
            Release ::
            match Struct.pack_Idf (frame_id st) (timestamp st) (fps st) with
            | inl _ => [Discard ws]
            | inr header =>
                Send ws (Binary (header ++ frame_data)) (outcome p) ::
                match outcome p with
                | Delivered => Sleep 0.001 :: session_loop ws (frame_id st) rest
                | _ => [Discard ws]
                end
            end
      end
  end.

Definition handle_client (ws : websocket) (polls : list poll) : list action :=
  Add ws :: session_loop ws (-1) polls.

(** [GO2VideoReceiver.start]. *)
Definition start (pipeline_str : string) (env : gst_env) : bool * list process_event :=
  let shown := Log ("[GStreamer] Pipeline:" ++ nl ++ pipeline_str ++ nl)%string in
  match launch_error env with
  | Some e => (false, [shown; Log ("[GStreamer] Failed to create pipeline: " ++ e)%string])
  | None =>
      if state_change_failure env
      then (false, [shown; Log "[GStreamer] Failed to start pipeline"])
      else (true, [shown; Log "[GStreamer] Pipeline started"])
  end.

(** [main()], from the start of the GLib thread on. *)
Definition main (port : Z) (pipeline_str : string) (env : gst_env)
  : list process_event :=
  let (started, logs) := start pipeline_str env in
  StartThread "glib_thread_func" :: Pause 0.3 :: logs ++
  if started then [Handlers; Serve port]
  else [Exit 1].

End V3.

Module V4.

(** The pipeline's [jpegenc] has already compressed the sample: the mapped
    bytes are stored as they are. *)
Definition store (jpeg_bytes : bytes) (t1 t2 : float) (st : VideoState)
  : VideoState :=
  {| latest_frame := Some jpeg_bytes;
     frame_id := frame_id st + 1;
     timestamp := t1;
     fps := fps st;
     connected := connected st;
     frame_times := Py.deque_append window_size (frame_times st) t2;
     width := width st; height := height st;
     new_frame_event := new_frame_event st |}.

(** The rate printed every 60th frame; [None] is the [ZeroDivisionError] of
    a window whose ends coincide. *)
Definition window_rate (times : list float) : option float :=
  if (2 <=? length times)%nat then
    let span := (Py.newest times - Py.first times)%float in
    if (span =? 0)%float then None
    else Some (Py.float_of_nat (length times - 1) / span)%float
  else Some 0%float.

Definition on_new_sample (p : pull) (st : VideoState) : FlowReturn * VideoState :=
  match sample p with
  | None => (FlowERROR, st)
  | Some s =>
      if map_success s then
        let st' := store (map_data s) (time1 p) (time2 p) st in
        if (frame_id st' mod 60 =? 0) then
          match window_rate (frame_times st') with
          | Some _ => (FlowOK, st')
          | None => (FlowRaised, st')
          end
        else (FlowOK, st')
      else (FlowERROR, st)
  end.

Definition produces (p : pull) : bool :=
  match sample p with
  | Some s => map_success s
  | None => false
  end.

Definition receive (ps : list pull) (st : VideoState) : VideoState :=
  fold_left (fun s p => snd (on_new_sample p s)) ps st.

(** [while True] of [handle_client]: the lock is taken only to copy the
    three values.  The header always carries [0.0] as its rate.  The outer
    [except] names [ConnectionClosed] only: what [struct.pack] raises leaves
    the coroutine. *)
Fixpoint session_loop (ws : websocket) (last_frame_id : Z) (polls : list poll)
  : list action :=
  match polls with
  | [] => []
  | p :: rest =>
      let st := seen p in
      Acquire :: Release ::
      match latest_frame st with
      | Some frame_data =>
          if Py.truthy (latest_frame st) && negb (frame_id st =? last_frame_id)
          then
            match Struct.pack_Idf (frame_id st) (timestamp st) 0.0 with
            | inl e => [Discard ws; Raise e]
            | inr header =>
                Send ws (Binary (header ++ frame_data)) (outcome p) ::
                match outcome p with
                | Delivered => Sleep 0.001 :: session_loop ws (frame_id st) rest
                | _ => [Discard ws]
                end
            end
          else Sleep 0.005 :: session_loop ws last_frame_id rest
      | None => Sleep 0.005 :: session_loop ws last_frame_id rest
      end
  end.

Definition handle_client (ws : websocket) (polls : list poll) : list action :=
  Add ws :: session_loop ws (-1) polls.

(** [GO2VideoReceiver.start]. *)
Definition start (pipeline_str : string) (env : gst_env) : bool * list process_event :=
  let shown := Log ("[GStreamer] Pipeline:" ++ nl ++ pipeline_str ++ nl)%string in
  match launch_error env with
  | Some e => (false, [shown; Log ("[GStreamer] Failed: " ++ e)%string])
  | None =>
      if state_change_failure env then (false, [shown]) else (true, [shown])
  end.

(** [main()], from the start of the GLib thread on. *)
Definition main (port : Z) (pipeline_str : string) (env : gst_env)
  : list process_event :=
  let (started, logs) := start pipeline_str env in
  StartThread "glib_main" :: Pause 0.3 :: logs ++
  if started then [Handlers; Serve port]
  else [Log "[Main] Failed to start video receiver"; Exit 1].

End V4.

(** ** The producer adapters seen uniformly

    Each variant's adapter is a step on the shared state driven by one input
    of the video source; [success] tells whether the input makes it publish a
    frame and [stamp] is the reading of the clock it appends to the window. *)

Record adapter (I : Type) := {
  step : I -> VideoState -> VideoState;
  success : I -> bool;
  stamp : I -> float
}.
Arguments step {I}.
Arguments success {I}.
Arguments stamp {I}.

Definition run {I} (P : adapter I) (inputs : list I) (st : VideoState) : VideoState :=
  fold_left (fun s i => step P i s) inputs st.

Definition v1_adapter {image} (imencode : image -> Z -> bool * bytes) (q : Z)
  : adapter (@V1.capture image) :=
  {| step := V1.capture_iteration imencode q;
     success := V1.produces imencode q;
     stamp := V1.now |}.

Definition v2_adapter (encode_jpeg : Z -> Z -> bytes -> Z -> option bytes) (q : Z)
  : adapter pull :=
  {| step := fun p st => snd (V2.on_new_sample encode_jpeg q p st);
     success := V2.produces encode_jpeg q;
     stamp := time2 |}.

Definition v3_adapter (encode_jpeg : Z -> Z -> bytes -> Z -> option bytes) (q : Z)
  : adapter pull :=
  {| step := fun p st => snd (V3.on_new_sample encode_jpeg q p st);
     success := V3.produces encode_jpeg q;
     stamp := time2 |}.

Definition v4_adapter : adapter pull :=
  {| step := fun p st => snd (V4.on_new_sample p st);
     success := V4.produces;
     stamp := time2 |}.

(** The frame id counts the frames published: a publishing step adds exactly
    one to it and fills the slot, any other step leaves the whole state as it
    was; from the initial state the id is the number of frames published so
    far, so the first one gets id 1; and the id never decreases along a
    run. *)
Definition counts_productions {I} (P : adapter I) : Prop :=
  (forall i st, success P i = true ->
     frame_id (step P i st) = frame_id st + 1 /\
     latest_frame (step P i st) <> None) /\
  (forall i st, success P i = false -> step P i st = st) /\
  (forall inputs,
     frame_id (run P inputs video_state0)
     = Z.of_nat (length (List.filter (success P) inputs))) /\
  (forall inputs i,
     List.filter (success P) inputs = [] -> success P i = true ->
     frame_id (run P (inputs ++ [i]) video_state0) = 1) /\
  (forall inputs more st,
     frame_id (run P inputs st) <= frame_id (run P (inputs ++ more) st)).

(** The last [n] elements of a list. *)
Definition last_n {A} (n : nat) (l : list A) : list A := skipn (length l - n) l.

(** The clock readings of the frames published by [inputs], oldest first. *)
Definition stamps {I} (P : adapter I) (inputs : list I) : list float :=
  map (stamp P) (List.filter (success P) inputs).

(** The rate as the specification words it: [(count - 1) / (newest - oldest)]
    when the window holds at least two timestamps, else [0]. *)
Definition spec_rate (times : list float) : float :=
  if (2 <=? length times)%nat
  then (Py.float_of_nat (length times - 1) / (Py.newest times - Py.first times))%float
  else 0%float.

(** An input on which the v1 encoder reports failure. *)
Definition v1_encode_fails {image} (imencode : image -> Z -> bool * bytes) (q : Z)
    (c : @V1.capture image) : bool :=
  match V1.ret c, V1.frame c with
  | true, Some f => negb (fst (imencode f q))
  | _, _ => false
  end.

(** An input on which the v2/v3 encoder raises. *)
Definition encoder_raises (encode_jpeg : Z -> Z -> bytes -> Z -> option bytes) (q : Z)
    (p : pull) : bool :=
  match sample p with
  | Some s =>
      map_success s &&
      match encode_jpeg (caps_width s) (caps_height s) (map_data s) q with
      | Some _ => false
      | None => true
      end
  | None => false
  end.

(** The window holds the clock readings of the last [window_size] published
    frames, oldest first. *)
Definition keeps_window {I} (P : adapter I) : Prop :=
  forall inputs,
    frame_times (run P inputs video_state0) = last_n window_size (stamps P inputs) /\
    (length (frame_times (run P inputs video_state0)) <= window_size)%nat.

(** How [fps] follows the window along a run from the initial state.  [w] is
    the window right after the step. *)
Definition refreshes_rate {I} (P : adapter I) : Prop :=
  forall inputs i,
    let before := run P inputs video_state0 in
    let after := step P i before in
    let w := frame_times after in
    let span := (Py.newest w - Py.first w)%float in
    (success P i = true -> (2 <= length w)%nat -> (0 <? span)%float = true ->
       fps after = spec_rate w) /\
    (success P i = true -> (2 <= length w)%nat -> (0 <? span)%float = false ->
       fps after = fps before) /\
    (success P i = false -> after = before) /\
    ((length w < 2)%nat -> fps after = 0%float).

(** A codec that always succeeds with an empty buffer, and the v1 captures
    that read the clock at the given times. *)
Definition always_encodes (_ : unit) (_ : Z) : bool * bytes := (true, []).

Definition captures_at (times : list float) : list (@V1.capture unit) :=
  map (fun t => {| V1.ret := true; V1.frame := Some tt; V1.now := t |}) times.

(** The ten readings of the specification's example. *)
Definition tenth_seconds : list float :=
  [0.0; 0.1; 0.2; 0.3; 0.4; 0.5; 0.6; 0.7; 0.8; 0.9]%float.

(** The header of the specification's example:
    [struct.pack('<I d f', 42, 1700000000.5, 29.7)]. *)
Definition example_header : bytes :=
  [Byte.x2a; Byte.x00; Byte.x00; Byte.x00;
   Byte.x00; Byte.x00; Byte.x20; Byte.x40; Byte.xfc; Byte.x54; Byte.xd9; Byte.x41;
   Byte.x9a; Byte.x99; Byte.xed; Byte.x41].

(** ** The session loops seen uniformly

    What a turn of a session loop does with the state it reads is one of
    three things: wait for the next turn, send the frame it read, or end
    (v3 and v4, when the header cannot be built). *)
Inductive verdict := Skip | Emit | Stop.

Definition v1_verdict (last_frame_id : Z) (st : VideoState) : verdict :=
  match (last_frame_id <? frame_id st), latest_frame st with
  | true, Some _ => Emit
  | _, _ => Skip
  end.

Definition v2_verdict (last_frame_id : Z) (st : VideoState) : verdict :=
  match latest_frame st with
  | Some _ => if frame_id st =? last_frame_id then Skip else Emit
  | None => Skip
  end.

Definition v3_verdict (last_frame_id : Z) (st : VideoState) : verdict :=
  match latest_frame st with
  | Some _ =>
      if frame_id st =? last_frame_id then Skip
      else match Struct.pack_Idf (frame_id st) (timestamp st) (fps st) with
           | inr _ => Emit
           | inl _ => Stop
           end
  | None => Skip
  end.

Definition v4_verdict (last_frame_id : Z) (st : VideoState) : verdict :=
  if Py.truthy (latest_frame st) && negb (frame_id st =? last_frame_id)
  then match Struct.pack_Idf (frame_id st) (timestamp st) 0 with
       | inr _ => Emit
       | inl _ => Stop
       end
  else Skip.

(** The frame ids a loop with that verdict sends over the given turns,
    starting from [last_frame_id]; a send that fails is the last one. *)
Fixpoint emitted (decide : Z -> VideoState -> verdict) (last_frame_id : Z)
    (polls : list poll) : list Z :=
  match polls with
  | [] => []
  | p :: rest =>
      match decide last_frame_id (seen p) with
      | Skip => emitted decide last_frame_id rest
      | Stop => []
      | Emit =>
          frame_id (seen p) ::
          match outcome p with
          | Delivered => emitted decide (frame_id (seen p)) rest
          | _ => []
          end
      end
  end.

(** The versions of the slot a session reads, turn after turn. *)
Definition versions (polls : list poll) : list Z :=
  map (fun p => frame_id (seen p)) polls.

(** A slot holding the frame [payload] under version [v]. *)
Definition slot (v : Z) (payload : bytes) : VideoState :=
  {| latest_frame := Some payload; frame_id := v; timestamp := 1700000000.5%float;
     fps := 29.7%float; connected := true; frame_times := []; width := 1280;
     height := 720; new_frame_event := false |}.

Definition sees (v : Z) : poll := {| seen := slot v [Byte.xff]; outcome := Delivered |}.

(** Messages that are frame messages and not status messages, and the
    converse. *)
Definition frame_only (m : message) : Prop := is_frame m = true /\ is_status m = false.
Definition status_only (m : message) : Prop := is_status m = true /\ is_frame m = false.

(** [zs] is an interleaving of [xs] and [ys]: what a transport sees when two
    coroutines write to it. *)
Inductive interleaved {A} : list A -> list A -> list A -> Prop :=
| interleaved_nil : interleaved [] [] []
| interleaved_left x xs ys zs :
    interleaved xs ys zs -> interleaved (x :: xs) ys (x :: zs)
| interleaved_right y xs ys zs :
    interleaved xs ys zs -> interleaved xs (y :: ys) (y :: zs).

(** A turn of a session that finds the slot still empty. *)
Definition waiting : poll := {| seen := video_state0; outcome := Delivered |}.

Definition is_acquire (a : action) : bool :=
  match a with Acquire => true | _ => false end.

(** A tick with three registered sessions where every send to session 2
    fails. *)
Definition three_clients : tick :=
  {| at_tick := slot 5 [Byte.xff];
     registry := {[ 1%positive; 2%positive; 3%positive ]};
     result := fun c => if Pos.eqb c 2 then Failed else Delivered |}.

(** The entries every status broadcast carries: connectivity, the rate
    rounded to one decimal, and the number of registered sessions. *)
Definition status_of (st : VideoState) (clients : gset websocket) (m : message) : Prop :=
  exists fields,
    m = Text (JObj fields) /\
    field "type" fields = Some (JStr "status") /\
    field "connected" fields = Some (JBool (connected st)) /\
    field "fps" fields = Some (JRound1 (fps st)) /\
    field "clients" fields = Some (JInt (Z.of_nat (size clients))).

(** The video source cannot be started: [Gst.parse_launch] raises or the
    pipeline refuses to go to [PLAYING]. *)
Definition cannot_start (env : gst_env) : bool :=
  match launch_error env with
  | Some _ => true
  | None => state_change_failure env
  end.

(** Some printed line says that something failed. *)
Definition reports_failure (tr : list process_event) : Prop :=
  exists line k, In (Log line) tr /\ String.index 0 "Failed" line = Some k.

Definition exits (tr : list process_event) : Prop :=
  exists code, In (Exit code) tr.

(** What a session reads from a live slot: between two turns of the session
    the adapter processes a batch of inputs; each turn comes with the outcome
    of the send it may attempt. *)
Fixpoint observed {I} (P : adapter I) (batches : list (list I * send_result))
    (st : VideoState) : list poll :=
  match batches with
  | [] => []
  | (b, r) :: rest =>
      let st' := run P b st in
      {| seen := st'; outcome := r |} :: observed P rest st'
  end.

(** A sample that maps to one byte, and one whose buffer cannot be mapped. *)
Definition good_pull (t : float) : pull :=
  {| sample := Some {| caps_width := 1280; caps_height := 720;
                       map_success := true; map_data := [Byte.xff] |};
     time1 := t; time2 := t |}.

Definition bad_pull (t : float) : pull :=
  {| sample := Some {| caps_width := 1280; caps_height := 720;
                       map_success := false; map_data := [] |};
     time1 := t; time2 := t |}.

(** A session that polls three times while three frames are published: one
    before its first turn, none before the second, two before the third. *)
Definition live_batches : list (list pull * send_result) :=
  [([good_pull 1.0], Delivered);
   ([], Delivered);
   ([good_pull 1.1; good_pull 1.2], Delivered)].

(** ** More of the producer side *)

(** The frame an input makes the adapter publish, if any: the bytes put in
    the slot and the clock reading written to [timestamp]. *)
Definition v1_frame_of {image} (imencode : image -> Z -> bool * bytes) (q : Z)
    (c : @V1.capture image) : option (bytes * float) :=
  match V1.ret c, V1.frame c with
  | true, Some f =>
      let (success, jpeg_buffer) := imencode f q in
      if success then Some (jpeg_buffer, V1.now c) else None
  | _, _ => None
  end.

(** v2 and v3 publish the same way. *)
Definition encoded_frame_of (encode_jpeg : Z -> Z -> bytes -> Z -> option bytes) (q : Z)
    (p : pull) : option (bytes * float) :=
  match sample p with
  | Some s =>
      if map_success s then
        match encode_jpeg (caps_width s) (caps_height s) (map_data s) q with
        | Some jpeg_bytes => Some (jpeg_bytes, time1 p)
        | None => None
        end
      else None
  | None => None
  end.

Definition v4_frame_of (p : pull) : option (bytes * float) :=
  match sample p with
  | Some s => if map_success s then Some (map_data s, time1 p) else None
  | None => None
  end.

(** The frames published by a list of inputs, oldest first, and the newest
    of them. *)
Fixpoint published {I} (frame_of : I -> option (bytes * float)) (inputs : list I)
  : list (bytes * float) :=
  match inputs with
  | [] => []
  | i :: rest =>
      match frame_of i with
      | Some f => f :: published frame_of rest
      | None => published frame_of rest
      end
  end.

Definition newest_frame (fs : list (bytes * float)) : option (bytes * float) :=
  List.last (map Some fs) None.

(** From the initial state the frame id is the number of frames published
    and the slot holds the newest of them with its own timestamp; as long as
    nothing was published the state is the initial one. *)
Definition holds_newest {I} (P : adapter I) (frame_of : I -> option (bytes * float))
  : Prop :=
  forall inputs,
    let st := run P inputs video_state0 in
    let fs := published frame_of inputs in
    frame_id st = Z.of_nat (length fs) /\
    match newest_frame fs with
    | Some (payload, t) => latest_frame st = Some payload /\ timestamp st = t
    | None => st = video_state0
    end.

(** Two states that differ at most in [connected]. *)
Definition same_but_connected (s1 s2 : VideoState) : Prop :=
  V1.set_connected false s1 = V1.set_connected false s2.

(** What the pipeline's bus posts to [on_bus_message]: the message type with
    the parts the handler reads ([from_pipeline] is
    [message.src == self.pipeline]). *)
Inductive bus_message :=
| BusError (err debug : string)
| BusWarning (err : string)
| BusEos
| BusStateChanged (from_pipeline : bool) (old new : string)
| BusOther.

(** [GO2VideoReceiver.on_bus_message] of v2: the state and the lines
    printed. *)
Definition v2_on_bus_message (m : bus_message) (st : VideoState)
  : VideoState * list process_event :=
  match m with
  | BusError err debug =>
      (V1.set_connected false st,
       [Log ("[GStreamer] ERROR: " ++ err)%string;
        Log ("[GStreamer] Debug: " ++ debug)%string])
  | BusWarning err => (st, [Log ("[GStreamer] WARNING: " ++ err)%string])
  | BusEos => (V1.set_connected false st, [Log "[GStreamer] End of stream"])
  | BusStateChanged true old new =>
      (st, [Log ("[GStreamer] State: " ++ old ++ " -> " ++ new)%string])
  | _ => (st, [])
  end.

(** v3 handles [ERROR] and [STATE_CHANGED] only. *)
Definition v3_on_bus_message (m : bus_message) (st : VideoState)
  : VideoState * list process_event :=
  match m with
  | BusError err debug =>
      (V1.set_connected false st, [Log ("[GStreamer] ERROR: " ++ err)%string])
  | BusStateChanged true old new =>
      (st, [Log ("[GStreamer] State: " ++ old ++ " -> " ++ new)%string])
  | _ => (st, [])
  end.

(** v4 only prints. *)
Definition v4_on_bus_message (m : bus_message) (st : VideoState)
  : VideoState * list process_event :=
  match m with
  | BusError err debug => (st, [Log ("[GStreamer] ERROR: " ++ err)%string])
  | BusStateChanged true old new =>
      (st, [Log ("[GStreamer] State: " ++ old ++ " -> " ++ new)%string])
  | _ => (st, [])
  end.

(** What the video source hands to the receiver, in the order in which the
    callbacks take effect: a new sample or a bus message. *)
Inductive source_event := Pulled (p : pull) | Posted (m : bus_message).

Definition pulls_of (evs : list source_event) : list pull :=
  flat_map (fun e => match e with Pulled p => [p] | Posted _ => [] end) evs.

Definition v2_source_run (encode_jpeg : Z -> Z -> bytes -> Z -> option bytes) (q : Z)
    (evs : list source_event) (st : VideoState) : VideoState :=
  fold_left (fun s e => match e with
                        | Pulled p => snd (V2.on_new_sample encode_jpeg q p s)
                        | Posted m => fst (v2_on_bus_message m s)
                        end) evs st.

Definition v3_source_run (encode_jpeg : Z -> Z -> bytes -> Z -> option bytes) (q : Z)
    (evs : list source_event) (st : VideoState) : VideoState :=
  fold_left (fun s e => match e with
                        | Pulled p => snd (V3.on_new_sample encode_jpeg q p s)
                        | Posted m => fst (v3_on_bus_message m s)
                        end) evs st.

Definition v4_source_run (evs : list source_event) (st : VideoState) : VideoState :=
  fold_left (fun s e => match e with
                        | Pulled p => snd (V4.on_new_sample p s)
                        | Posted m => fst (v4_on_bus_message m s)
                        end) evs st.

(** The connectivity flag as the last telling event leaves it: a published
    frame raises it, a bus message among [drops] lowers it. *)
Definition link_after (publishes : pull -> bool) (drops : bus_message -> bool)
    (evs : list source_event) (c0 : bool) : bool :=
  fold_left (fun c e => match e with
                        | Pulled p => if publishes p then true else c
                        | Posted m => if drops m then false else c
                        end) evs c0.

Definition v2_drops (m : bus_message) : bool :=
  match m with BusError _ _ | BusEos => true | _ => false end.

Definition v3_drops (m : bus_message) : bool :=
  match m with BusError _ _ => true | _ => false end.

(** Not below zero, in [spec_float] terms: a NaN, or a value whose sign is
    clear. *)
Definition not_negative (x : spec_float) : Prop :=
  match x with
  | S754_nan => True
  | S754_zero s | S754_infinity s | S754_finite s _ _ => s = false
  end.

(** A sample, an end of stream, and a sample again. *)
Definition outage : list source_event :=
  [Pulled (good_pull 1.0); Posted BusEos; Pulled (good_pull 1.1)].

(** ** More of the serving side *)

(** What a trace does after its first send that did not go through, if there
    is one. *)
Fixpoint after_failed_send (tr : list action) : option (list action) :=
  match tr with
  | [] => None
  | Send _ _ Delivered :: rest => after_failed_send rest
  | Send _ _ _ :: rest => Some rest
  | _ :: rest => after_failed_send rest
  end.

(** Whether [ws] is in [connected_clients] after the trace, given whether it
    was before. *)
Definition registered_after (ws : websocket) (tr : list action) (before : bool) : bool :=
  fold_left (fun r a => match a with
                        | Add c => if Pos.eqb c ws then true else r
                        | Discard c => if Pos.eqb c ws then false else r
                        | _ => r
                        end) tr before.


(** The header of the snapshot can be built (v3 packs the rate of the
    snapshot, v4 packs 0.0). *)
Definition v3_packable (st : VideoState) : bool :=
  match Struct.pack_Idf (frame_id st) (timestamp st) (fps st) with
  | inr _ => true
  | inl _ => false
  end.

Definition v4_packable (st : VideoState) : bool :=
  match Struct.pack_Idf (frame_id st) (timestamp st) 0 with
  | inr _ => true
  | inl _ => false
  end.

(** A JSON frame message built from one snapshot among [polls]: id,
    timestamp, rate and payload all come from that snapshot. *)
Definition v1_built_from (polls : list poll) (m : message) : Prop :=
  exists p frame_data,
    In p polls /\ latest_frame (seen p) = Some frame_data /\
    m = V1.frame_message (seen p) frame_data.

Definition v2_built_from (polls : list poll) (m : message) : Prop :=
  exists p frame_data,
    In p polls /\ latest_frame (seen p) = Some frame_data /\
    m = V2.frame_message (seen p) frame_data.

(** What the reader of a binary frame message gets: the header fields and
    the bytes after the header. *)
Definition decode_frame (m : message) : option (Z * float * float * bytes) :=
  match m with
  | Binary b =>
      match Struct.unpack_Idf (firstn Struct.header_size b) with
      | Some (fid, ts, rate) => Some (fid, ts, rate, skipn Struct.header_size b)
      | None => None
      end
  | Text _ => None
  end.

(** The rate as it comes out of the 4-byte field. *)
Definition through_single (x : float) : float :=
  Struct.single_of_bits (le_combine (le_split 4 (Struct.single_bits (Struct.to_single x)))).

(** A binary frame message that decodes to one snapshot among [polls]. *)
Definition v3_decodes_to (polls : list poll) (m : message) : Prop :=
  exists p frame_data,
    In p polls /\ latest_frame (seen p) = Some frame_data /\
    decode_frame m
    = Some (frame_id (seen p), timestamp (seen p), through_single (fps (seen p)),
            frame_data).

Definition v4_decodes_to (polls : list poll) (m : message) : Prop :=
  exists p frame_data,
    In p polls /\ latest_frame (seen p) = Some frame_data /\ frame_data <> [] /\
    decode_frame m = Some (frame_id (seen p), timestamp (seen p), 0%float, frame_data).

(** A turn that finds nothing to send after [last_frame_id]: the same
    version again, or an empty slot. *)
Definition nothing_new (last_frame_id : Z) (p : poll) : Prop :=
  frame_id (seen p) = last_frame_id \/ latest_frame (seen p) = None.

Definition registered_at (ws : websocket) (t : tick) : bool :=
  bool_decide (ws ∈ registry t).

Definition is_sleep (a : action) : bool :=
  match a with Sleep _ => true | _ => false end.

(** Two ticks with three sessions around one tick with an empty registry. *)
Definition three_ticks : list tick :=
  [three_clients;
   {| at_tick := slot 6 [Byte.xff]; registry := ∅; result := fun _ => Delivered |};
   three_clients].


(** ** More of the start-up path *)

Definition is_pause (e : process_event) : bool :=
  match e with Pause _ => true | _ => false end.

(** The number of [time.sleep] calls of a start-up trace. *)
Definition pauses (tr : list process_event) : nat :=
  length (List.filter is_pause tr).

Definition v1_warning : process_event :=
  Log "[Main] WARNING: Video not connected yet, but starting WebSocket server anyway".

(** A source that starts. *)
Definition healthy : gst_env := {| launch_error := None; state_change_failure := false |}.

(** * Properties *)

(** ** Frame ids *)

Section AdapterFacts.
Context {I : Type} (P : adapter I).
Hypothesis published : forall i st, success P i = true ->
  frame_id (step P i st) = frame_id st + 1 /\ latest_frame (step P i st) <> None.
Hypothesis dropped : forall i st, success P i = false -> step P i st = st.

Lemma run_app (xs ys : list I) (st : VideoState) :
  run P (xs ++ ys) st = run P ys (run P xs st).
Proof. unfold run. apply fold_left_app. Qed.

Lemma run_frame_id (inputs : list I) (st : VideoState) :
  frame_id (run P inputs st)
  = frame_id st + Z.of_nat (length (List.filter (success P) inputs)).
Proof.
  revert st. induction inputs as [|i inputs IH]; intros st; simpl.
  - lia.
  - change (fold_left _ inputs ?s) with (run P inputs s). rewrite IH.
    destruct (success P i) eqn:E.
    + destruct (published i st E) as [-> _]. simpl length. lia.
    + rewrite (dropped i st E). reflexivity.
Qed.

Lemma adapter_counts : counts_productions P.
Proof.
  repeat split.
  - apply published; assumption.
  - apply published; assumption.
  - exact dropped.
  - intros inputs. rewrite run_frame_id. reflexivity.
  - intros inputs i Hnone Hi. rewrite run_frame_id, List.filter_app, Hnone.
    simpl. rewrite Hi. reflexivity.
  - intros inputs more st. rewrite run_app, (run_frame_id more). lia.
Qed.
End AdapterFacts.

Lemma v1_published {image} (imencode : image -> Z -> bool * bytes) q c st :
  V1.produces imencode q c = true ->
  exists jpeg, V1.capture_iteration imencode q c st = V1.store jpeg (V1.now c) st.
Proof.
  unfold V1.produces, V1.capture_iteration.
  destruct (V1.ret c); [|discriminate].
  destruct (V1.frame c) as [f|]; [|discriminate].
  destruct (imencode f q) as [ok buf]; simpl. intros ->. eauto.
Qed.

Lemma v1_dropped {image} (imencode : image -> Z -> bool * bytes) q c st :
  V1.produces imencode q c = false -> V1.capture_iteration imencode q c st = st.
Proof.
  unfold V1.produces, V1.capture_iteration.
  destruct (V1.ret c); [|reflexivity].
  destruct (V1.frame c) as [f|]; [|reflexivity].
  destruct (imencode f q) as [ok buf]; simpl. intros ->. reflexivity.
Qed.

Lemma v2_published encode_jpeg q p st :
  V2.produces encode_jpeg q p = true ->
  exists jpeg w h,
    V2.on_new_sample encode_jpeg q p st
    = (FlowOK, V2.store jpeg w h (time1 p) (time2 p) st).
Proof.
  unfold V2.produces, V2.on_new_sample.
  destruct (sample p) as [s|]; [|discriminate].
  destruct (map_success s); [|discriminate].
  destruct (encode_jpeg _ _ _ _); [|discriminate]. eauto.
Qed.

Lemma v2_dropped encode_jpeg q p st :
  V2.produces encode_jpeg q p = false ->
  snd (V2.on_new_sample encode_jpeg q p st) = st.
Proof.
  unfold V2.produces, V2.on_new_sample.
  destruct (sample p) as [s|]; [|reflexivity].
  destruct (map_success s); [|reflexivity].
  destruct (encode_jpeg _ _ _ _); [discriminate|reflexivity].
Qed.

Lemma v3_published encode_jpeg q p st :
  V3.produces encode_jpeg q p = true ->
  exists jpeg w h,
    V3.on_new_sample encode_jpeg q p st
    = (FlowOK, V3.store jpeg w h (time1 p) (time2 p) st).
Proof.
  unfold V3.produces, V3.on_new_sample.
  destruct (sample p) as [s|]; [|discriminate].
  destruct (map_success s); [|discriminate].
  destruct (encode_jpeg _ _ _ _); [|discriminate]. eauto.
Qed.

Lemma v3_dropped encode_jpeg q p st :
  V3.produces encode_jpeg q p = false ->
  snd (V3.on_new_sample encode_jpeg q p st) = st.
Proof.
  unfold V3.produces, V3.on_new_sample.
  destruct (sample p) as [s|]; [|reflexivity].
  destruct (map_success s); [|reflexivity].
  destruct (encode_jpeg _ _ _ _); [discriminate|reflexivity].
Qed.

Lemma v4_published p st :
  V4.produces p = true ->
  exists jpeg,
    snd (V4.on_new_sample p st) = V4.store jpeg (time1 p) (time2 p) st.
Proof.
  unfold V4.produces, V4.on_new_sample.
  destruct (sample p) as [s|]; [|discriminate]. intros ->.
  exists (map_data s).
  destruct (_ =? 0); [destruct (V4.window_rate _)|]; reflexivity.
Qed.

Lemma v4_dropped p st :
  V4.produces p = false -> snd (V4.on_new_sample p st) = st.
Proof.
  unfold V4.produces, V4.on_new_sample.
  destruct (sample p) as [s|]; [|reflexivity]. intros ->. reflexivity.
Qed.

Lemma v1_counts {image} (imencode : image -> Z -> bool * bytes) q :
  counts_productions (v1_adapter imencode q).
Proof.
  apply adapter_counts; simpl; intros i st E.
  - destruct (v1_published imencode q i st E) as [jpeg ->]. simpl.
    split; [reflexivity|discriminate].
  - apply v1_dropped, E.
Qed.

Lemma v2_counts encode_jpeg q : counts_productions (v2_adapter encode_jpeg q).
Proof.
  apply adapter_counts; simpl; intros i st E.
  - destruct (v2_published encode_jpeg q i st E) as (jpeg & w & h & ->). simpl.
    split; [reflexivity|discriminate].
  - apply v2_dropped, E.
Qed.

Lemma v3_counts encode_jpeg q : counts_productions (v3_adapter encode_jpeg q).
Proof.
  apply adapter_counts; simpl; intros i st E.
  - destruct (v3_published encode_jpeg q i st E) as (jpeg & w & h & ->). simpl.
    split; [reflexivity|discriminate].
  - apply v3_dropped, E.
Qed.

Lemma v4_counts : counts_productions v4_adapter.
Proof.
  apply adapter_counts; simpl; intros i st E.
  - destruct (v4_published i st E) as [jpeg ->]. simpl.
    split; [reflexivity|discriminate].
  - apply v4_dropped, E.
Qed.

(** Three samples through the v4 adapter, the second one unmappable: the
    published frames get ids 1 and 2. *)
Example v4_numbers_frames :
  map frame_id (map seen (observed v4_adapter
                            [([good_pull 1.0], Delivered);
                             ([bad_pull 1.1], Delivered);
                             ([good_pull 1.2], Delivered)] video_state0))
  = [1; 1; 2].
Proof. reflexivity. Qed.

(** C1.  In each of the four variants the producer adapter numbers the frames
    it publishes 1, 2, 3, ...: a publishing step sets the slot and adds
    exactly one to the frame id, every other step leaves the state untouched,
    so that from the initial state the id equals the number of frames
    published, the first published frame has id 1, and the id is
    non-decreasing along every run. *)
Theorem frame_id_counts_published_frames :
  (forall image (imencode : image -> Z -> bool * bytes) q,
      counts_productions (v1_adapter imencode q)) /\
  (forall encode_jpeg q, counts_productions (v2_adapter encode_jpeg q)) /\
  (forall encode_jpeg q, counts_productions (v3_adapter encode_jpeg q)) /\
  counts_productions v4_adapter.
Proof.
  split; [|split; [|split]].
  - intros. apply v1_counts.
  - apply v2_counts.
  - apply v3_counts.
  - apply v4_counts.
Qed.

(** The versions read from a live slot never decrease. *)
Lemma observed_versions_sorted {I} (P : adapter I) :
  counts_productions P ->
  forall batches st, StronglySorted Z.le (versions (observed P batches st)).
Proof.
  intros (_ & _ & _ & _ & Hmono).
  assert (Hge : forall batches st,
            Forall (fun v => frame_id st <= v) (versions (observed P batches st))).
  { induction batches as [|[b r] rest IH]; intros st; [constructor|].
    cbn [observed versions map seen]. fold (versions (observed P rest (run P b st))).
    pose proof (Hmono [] b st) as H0. cbn [app run fold_left] in H0.
    fold (run P b st) in H0.
    constructor; [exact H0|].
    eapply Forall_impl; [apply IH|]. intros v Hv. simpl in Hv. lia. }
  induction batches as [|[b r] rest IH]; intros st; [constructor|].
  cbn [observed versions map seen]. fold (versions (observed P rest (run P b st))).
  constructor; [apply IH|apply Hge].
Qed.

(** ** Encode failures *)

(** C4.  A sample whose encode step fails changes nothing: in v1, where
    [cv2.imencode] reports failure, the iteration returns the state it was
    given (frame id, slot and FPS window included) and the loop goes on with
    the next sample; in v2 and v3, where the encoder raises, the callback
    ends with the exception and the state it was given, and the next sample
    is processed from that state. *)
Theorem encode_failure_drops_sample :
  (forall image (imencode : image -> Z -> bool * bytes) q c rest st,
      v1_encode_fails imencode q c = true ->
      V1.capture_iteration imencode q c st = st /\
      V1.capture_loop imencode q (c :: rest) st = V1.capture_loop imencode q rest st) /\
  (forall encode_jpeg q p rest st,
      encoder_raises encode_jpeg q p = true ->
      V2.on_new_sample encode_jpeg q p st = (FlowRaised, st) /\
      V2.receive encode_jpeg q (p :: rest) st = V2.receive encode_jpeg q rest st) /\
  (forall encode_jpeg q p rest st,
      encoder_raises encode_jpeg q p = true ->
      V3.on_new_sample encode_jpeg q p st = (FlowRaised, st) /\
      V3.receive encode_jpeg q (p :: rest) st = V3.receive encode_jpeg q rest st).
Proof.
  repeat apply conj.
  - intros image imencode q c rest st H.
    assert (E : V1.capture_iteration imencode q c st = st).
    { revert H. unfold v1_encode_fails, V1.capture_iteration.
      destruct (V1.ret c); [|discriminate].
      destruct (V1.frame c) as [f|]; [|discriminate].
      destruct (imencode f q) as [[] buf]; simpl; [discriminate|reflexivity]. }
    split; [exact E|]. unfold V1.capture_loop. simpl. rewrite E. reflexivity.
  - intros encode_jpeg q p rest st H.
    assert (E : V2.on_new_sample encode_jpeg q p st = (FlowRaised, st)).
    { revert H. unfold encoder_raises, V2.on_new_sample.
      destruct (sample p) as [s|]; [|discriminate].
      destruct (map_success s); [|discriminate].
      destruct (encode_jpeg _ _ _ _); [discriminate|reflexivity]. }
    split; [exact E|]. unfold V2.receive. simpl. rewrite E. reflexivity.
  - intros encode_jpeg q p rest st H.
    assert (E : V3.on_new_sample encode_jpeg q p st = (FlowRaised, st)).
    { revert H. unfold encoder_raises, V3.on_new_sample.
      destruct (sample p) as [s|]; [|discriminate].
      destruct (map_success s); [|discriminate].
      destruct (encode_jpeg _ _ _ _); [discriminate|reflexivity]. }
    split; [exact E|]. unfold V3.receive. simpl. rewrite E. reflexivity.
Qed.

Lemma encode_failure_drops_sample_witness :
  let never_encodes := fun (_ : unit) (_ : Z) => (false, @nil byte) in
  let c := {| V1.ret := true; V1.frame := Some tt; V1.now := 1700000000.5%float |} in
  v1_encode_fails never_encodes 80 c = true /\
  V1.capture_iteration never_encodes 80 c video_state0 = video_state0.
Proof.
  split; [reflexivity|].
  exact (proj1 (proj1 encode_failure_drops_sample unit
                  (fun _ _ => (false, @nil byte)) 80
                  {| V1.ret := true; V1.frame := Some tt; V1.now := 1700000000.5%float |}
                  [] video_state0 eq_refl)).
Defined.

(** ** FPS window *)

Lemma length_deque_append {A} (m : nat) (d : list A) (x : A) :
  (length d <= S m)%nat -> (length (Py.deque_append (S m) d x) <= S m)%nat.
Proof.
  intros H. unfold Py.deque_append.
  destruct (Nat.ltb_spec (length d) (S m)); rewrite length_app; simpl.
  - lia.
  - destruct d; simpl in *; lia.
Qed.

Lemma deque_append_last_n {A} (m : nat) (l : list A) (x : A) :
  Py.deque_append (S m) (last_n (S m) l) x = last_n (S m) (l ++ [x]).
Proof.
  unfold Py.deque_append, last_n. rewrite length_app, length_skipn. simpl length.
  destruct (Nat.ltb_spec (length l - (length l - S m)) (S m)) as [Hlt|Hge].
  - replace (length l - S m)%nat with 0%nat by lia.
    replace (length l + 1 - S m)%nat with 0%nat by lia. reflexivity.
  - rewrite List.tl_skipn, skipn_app.
    replace (length l + 1 - S m)%nat with (S (length l - S m)) by lia.
    replace (S (length l - S m) - length l)%nat with 0%nat by lia. reflexivity.
Qed.

Section WindowFacts.
Context {I : Type} (P : adapter I).
Hypothesis appended : forall i st, success P i = true ->
  frame_times (step P i st)
  = Py.deque_append window_size (frame_times st) (stamp P i).
Hypothesis dropped : forall i st, success P i = false -> step P i st = st.

Lemma run_snoc (inputs : list I) (i : I) (st : VideoState) :
  run P (inputs ++ [i]) st = step P i (run P inputs st).
Proof. unfold run. rewrite fold_left_app. reflexivity. Qed.

Lemma run_window (inputs : list I) :
  frame_times (run P inputs video_state0) = last_n window_size (stamps P inputs).
Proof.
  induction inputs as [|i inputs IH] using rev_ind; [reflexivity|].
  rewrite run_snoc. unfold stamps in *. rewrite List.filter_app. simpl.
  destruct (success P i) eqn:E.
  - rewrite (appended _ _ E), IH, map_app. apply deque_append_last_n.
  - rewrite (dropped _ _ E), app_nil_r. exact IH.
Qed.

Lemma adapter_keeps_window : keeps_window P.
Proof.
  intros inputs. split; [apply run_window|].
  rewrite run_window. unfold last_n. rewrite length_skipn. lia.
Qed.

Hypothesis refreshed : forall i st, success P i = true ->
  fps (step P i st) = refresh_fps (frame_times (step P i st)) (fps st).

Lemma run_short_window (inputs : list I) :
  (length (frame_times (run P inputs video_state0)) < 2)%nat ->
  fps (run P inputs video_state0) = 0%float.
Proof.
  induction inputs as [|i inputs IH] using rev_ind; [reflexivity|].
  rewrite run_snoc. destruct (success P i) eqn:E.
  - rewrite (refreshed _ _ E). intros Hw. unfold refresh_fps.
    destruct (Nat.leb_spec 2 (length (frame_times (step P i (run P inputs video_state0)))));
      [lia|].
    apply IH. rewrite (appended _ _ E) in Hw. revert Hw.
    unfold Py.deque_append, window_size.
    destruct (frame_times (run P inputs video_state0)) as [|a [|b d]]; simpl; try lia.
    destruct (Nat.ltb_spec (S (S (length d))) 30); simpl; rewrite length_app; lia.
  - rewrite (dropped _ _ E). exact IH.
Qed.

Lemma adapter_refreshes_rate : refreshes_rate P.
Proof.
  intros inputs i; cbv zeta. repeat apply conj.
  - intros E Hw Hs. rewrite (refreshed _ _ E). unfold refresh_fps, spec_rate.
    apply Nat.leb_le in Hw. rewrite Hw, Hs. reflexivity.
  - intros E Hw Hs. rewrite (refreshed _ _ E). unfold refresh_fps.
    apply Nat.leb_le in Hw. rewrite Hw, Hs. reflexivity.
  - apply dropped.
  - rewrite <- run_snoc. apply run_short_window.
Qed.
End WindowFacts.
Lemma v1_window_rate {image} (imencode : image -> Z -> bool * bytes) q :
  keeps_window (v1_adapter imencode q) /\ refreshes_rate (v1_adapter imencode q).
Proof.
  split; [apply adapter_keeps_window|apply adapter_refreshes_rate]; simpl;
    intros i st E;
    try (apply v1_dropped, E);
    destruct (v1_published imencode q i st E) as [jpeg ->]; reflexivity.
Qed.

Lemma v2_window_rate encode_jpeg q :
  keeps_window (v2_adapter encode_jpeg q) /\ refreshes_rate (v2_adapter encode_jpeg q).
Proof.
  split; [apply adapter_keeps_window|apply adapter_refreshes_rate]; simpl;
    intros i st E;
    try (apply v2_dropped, E);
    destruct (v2_published encode_jpeg q i st E) as (jpeg & w & h & ->); reflexivity.
Qed.

Lemma v3_window_rate encode_jpeg q :
  keeps_window (v3_adapter encode_jpeg q) /\ refreshes_rate (v3_adapter encode_jpeg q).
Proof.
  split; [apply adapter_keeps_window|apply adapter_refreshes_rate]; simpl;
    intros i st E;
    try (apply v3_dropped, E);
    destruct (v3_published encode_jpeg q i st E) as (jpeg & w & h & ->); reflexivity.
Qed.

Lemma v4_window : keeps_window v4_adapter.
Proof.
  apply adapter_keeps_window; simpl; intros i st E.
  - destruct (v4_published i st E) as [jpeg ->]. reflexivity.
  - apply v4_dropped, E.
Qed.

(** C5, as the code has it.  The window holds the clock readings of the last
    30 published frames (all four variants).  In v1, v2 and v3 a publishing
    step sets [fps] to [(count - 1) / (newest - oldest)] when the window then
    holds at least two readings and [newest - oldest] is positive; with at
    least two readings and a span that is not positive it leaves [fps] as it
    was; [fps] is 0 as long as the window holds fewer than two readings.  For
    the readings 0.0, 0.1, ..., 0.9 the rate is exactly 10.0, hence within
    0.05 of 10.0. *)
Theorem rate_is_formula_when_span_positive :
  (forall image (imencode : image -> Z -> bool * bytes) q,
      keeps_window (v1_adapter imencode q) /\ refreshes_rate (v1_adapter imencode q)) /\
  (forall encode_jpeg q,
      keeps_window (v2_adapter encode_jpeg q) /\ refreshes_rate (v2_adapter encode_jpeg q)) /\
  (forall encode_jpeg q,
      keeps_window (v3_adapter encode_jpeg q) /\ refreshes_rate (v3_adapter encode_jpeg q)) /\
  keeps_window v4_adapter /\
  (let st := run (v1_adapter always_encodes 80) (captures_at tenth_seconds) video_state0 in
   frame_times st = tenth_seconds /\
   fps st = spec_rate tenth_seconds /\
   fps st = 10%float /\
   (abs (fps st - 10) <=? 0.05)%float = true).
Proof.
  split; [|split; [|split; [|split]]].
  - intros; apply v1_window_rate.
  - intros; apply v2_window_rate.
  - intros; apply v3_window_rate.
  - apply v4_window.
  - vm_compute. repeat split.
Qed.

(** C5 as stated fails: when the clock steps back (readings 5.0, 6.0, 4.0)
    the window holds three readings, the formula gives 2 / (4 - 5) = -2.0, and
    [fps] is still the 1.0 computed one frame earlier. *)
Lemma rate_is_stale_when_clock_steps_back :
  let st := run (v1_adapter always_encodes 80) (captures_at [5; 6; 4]%float) video_state0 in
  frame_times st = [5; 6; 4]%float /\
  fps st = 1%float /\
  spec_rate (frame_times st) = (-2)%float /\
  fps st <> spec_rate (frame_times st).
Proof.
  vm_compute. repeat split.
  intros H. apply (f_equal (fun x => PrimFloat.eqb x 1%float)) in H.
  vm_compute in H. discriminate.
Qed.
(** ** Wire codec *)

Lemma digits2_pos_size p : digits2_pos p = Pos.size p.
Proof. induction p; simpl; congruence. Qed.

Lemma size_bounds p : 2 ^ (Z.pos (Pos.size p) - 1) <= Z.pos p < 2 ^ Z.pos (Pos.size p).
Proof.
  split.
  - assert (H : Z.pos (2 ^ Pos.size p) <= Z.pos p~0) by exact (Pos.size_le p).
    rewrite Pos2Z.inj_pow in H.
    replace (Z.pos (Pos.size p)) with (Z.succ (Z.pos (Pos.size p) - 1)) in H by lia.
    rewrite Z.pow_succ_r in H by lia. lia.
  - assert (H : Z.pos p < Z.pos (2 ^ Pos.size p)) by exact (Pos.size_gt p).
    rewrite Pos2Z.inj_pow in H. exact H.
Qed.

(** The finite binary64 numbers: subnormal mantissas at the lowest exponent,
    53-bit mantissas above. *)
Lemma valid_double_mantissa (m : positive) (e : Z) :
  bounded prec emax m e = true ->
  (Z.pos m < 4503599627370496 /\ e = -1074) \/
  (4503599627370496 <= Z.pos m < 9007199254740992 /\ -1074 <= e <= 971).
Proof.
  unfold bounded, canonical_mantissa, fexp, emin. intros V.
  apply andb_prop in V as [C B]. apply Z.eqb_eq in C. apply Z.leb_le in B.
  rewrite digits2_pos_size in C. pose proof (size_bounds m) as Sz.
  change prec with 53 in *. change emax with 1024 in *.
  destruct (Z.max_spec (Z.pos (Pos.size m) + e - 53) (3 - 1024 - 53)) as [[L E]|[L E]].
  - assert (Hs : Z.pos (Pos.size m) <= 53) by lia.
    destruct (Z.eq_dec (Z.pos (Pos.size m)) 53) as [E53|N53].
    + right. rewrite E53 in Sz. change (2 ^ (53 - 1)) with 4503599627370496 in Sz.
      change (2 ^ 53) with 9007199254740992 in Sz. lia.
    + left. assert (2 ^ Z.pos (Pos.size m) <= 2 ^ 52) by (apply Z.pow_le_mono_r; lia).
      change (2 ^ 52) with 4503599627370496 in *. lia.
  - right. assert (E53 : Z.pos (Pos.size m) = 53) by lia.
    rewrite E53 in Sz. change (2 ^ (53 - 1)) with 4503599627370496 in Sz.
    change (2 ^ 53) with 9007199254740992 in Sz. lia.
Qed.

Lemma sign_bit_63 (s : bool) (r : Z) :
  0 <= r < 2 ^ 63 -> Z.testbit ((if s then 2 ^ 63 else 0) + r) 63 = s.
Proof.
  intros H. change (2 ^ 63) with 9223372036854775808 in *. destruct s.
  - apply Z.testbit_true; [lia|]. change (2 ^ 63) with 9223372036854775808.
    Z.div_mod_to_equations. lia.
  - apply Z.testbit_false; [lia|]. change (2 ^ 63) with 9223372036854775808.
    Z.div_mod_to_equations. lia.
Qed.

(** Reading the three fields of a binary64 word back. *)
Lemma double_fields (s : bool) (b f : Z) :
  0 <= b < 2048 -> 0 <= f < 4503599627370496 ->
  let bits := (if s then 2 ^ 63 else 0) + b * 4503599627370496 + f in
  Z.testbit bits 63 = s /\
  (bits / 4503599627370496) mod 2048 = b /\
  bits mod 4503599627370496 = f.
Proof.
  intros Hb Hf bits. subst bits. split; [|split].
  - rewrite <- Z.add_assoc. apply sign_bit_63.
    change (2 ^ 63) with 9223372036854775808. lia.
  - change (2 ^ 63) with 9223372036854775808. destruct s; Z.div_mod_to_equations; lia.
  - change (2 ^ 63) with 9223372036854775808. destruct s; Z.div_mod_to_equations; lia.
Qed.

Lemma double_spec_roundtrip (x : spec_float) :
  valid_binary x = true ->
  Struct.spec_of_bits 52 11 (-1074) (Struct.bits_of_spec 52 11 (-1074) x) = x.
Proof.
  destruct x as [s|s| |s m e]; intros V; try (destruct s; reflexivity);
    [reflexivity|].
  apply valid_double_mantissa in V.
  unfold Struct.bits_of_spec, Struct.spec_of_bits.
  change (52 + 11) with 63.
  change (2 ^ 52) with 4503599627370496 in *.
  change (2 ^ 11) with 2048 in *.
  destruct (Z.ltb_spec (Z.pos m) 4503599627370496) as [Hm|Hm].
  - assert (e = -1074) as -> by lia.
    destruct (double_fields s 0 (Z.pos m)) as (T & Bi & Fr); [lia|lia|].
    rewrite Z.mul_0_l, Z.add_0_r in T, Bi, Fr.
    rewrite T, Bi, Fr. reflexivity.
  - destruct (double_fields s (e - -1074 + 1) (Z.pos m - 4503599627370496))
      as (T & Bi & Fr); [lia|lia|].
    rewrite T, Bi, Fr.
    destruct (Z.eqb_spec (e - -1074 + 1) 0); [lia|].
    destruct (Z.eqb_spec (e - -1074 + 1) (2048 - 1)); [lia|].
    replace (Z.pos m - 4503599627370496 + 4503599627370496) with (Z.pos m) by lia.
    f_equal. lia.
Qed.

(** Every double survives the trip through its 64-bit image. *)
Lemma double_roundtrip (x : float) : Struct.double_of_bits (Struct.double_bits x) = x.
Proof.
  unfold Struct.double_of_bits, Struct.double_bits.
  rewrite double_spec_roundtrip by apply Prim2SF_valid. apply SF2Prim_Prim2SF.
Qed.

Lemma double_bits_range (x : float) : 0 <= Struct.double_bits x < 2 ^ 64.
Proof.
  unfold Struct.double_bits. pose proof (Prim2SF_valid x) as V.
  destruct (Prim2SF x) as [s|s| |s m e]; unfold Struct.bits_of_spec.
  - destruct s; split; try reflexivity; discriminate.
  - destruct s; split; try reflexivity; discriminate.
  - split; [discriminate|reflexivity].
  - apply valid_double_mantissa in V.
    change (52 + 11) with 63. change (2 ^ 63) with 9223372036854775808.
    change (2 ^ 52) with 4503599627370496. change (2 ^ 64) with 18446744073709551616.
    destruct (Z.ltb_spec (Z.pos m) 4503599627370496); destruct s; lia.
Qed.

Lemma pack_Idf_inv (a : Z) (b c : float) (header : bytes) :
  Struct.pack_Idf a b c = inr header ->
  0 <= a < 2 ^ 32 /\
  header = le_split 4 a ++ le_split 8 (Struct.double_bits b)
           ++ le_split 4 (Struct.single_bits (Struct.to_single c)).
Proof.
  unfold Struct.pack_Idf, Struct.pack_I, Struct.pack_d, Struct.pack_f.
  destruct (Z.leb_spec 0 a) as [H1|]; [|discriminate].
  destruct (Z.leb_spec a 4294967295) as [H2|]; [|discriminate]. simpl.
  destruct (Prim2SF c), (Struct.to_single c); try discriminate;
    intros [= <-]; (split; [lia|reflexivity]).
Qed.

Lemma pack_Idf_length (a : Z) (b c : float) (header : bytes) :
  Struct.pack_Idf a b c = inr header -> length header = Struct.header_size.
Proof.
  intros H. apply pack_Idf_inv in H as [_ ->].
  rewrite !length_app, !length_le_split. reflexivity.
Qed.

Lemma unpack_frame_id (a : Z) (b c : float) (header payload : bytes) :
  Struct.pack_Idf a b c = inr header ->
  frame_id_of (Binary (header ++ payload)) = Some a.
Proof.
  intros H. pose proof (pack_Idf_length _ _ _ _ H) as L.
  apply pack_Idf_inv in H as [R E]. unfold frame_id_of.
  rewrite List.firstn_app_l by (symmetry; exact L). unfold Struct.unpack_Idf.
  rewrite L, Nat.eqb_refl. subst header.
  rewrite List.firstn_app_l by (rewrite length_le_split; reflexivity).
  rewrite le_combine_split. f_equal. apply Z.mod_small.
  change (2 ^ (Z.of_nat 4 * 8)) with (2 ^ 32). lia.
Qed.

(** C3.  The header built by [struct.pack('<I d f', ...)] is 16 bytes: the
    frame id as 4 little-endian bytes, the binary64 image of the timestamp as
    8 little-endian bytes, the binary32 image of the rate as 4 little-endian
    bytes.  The v3 and v4 frame message is that header followed at once by
    the payload.  Reading the header back gives the frame id and the
    timestamp again, whatever they are; for frame_id = 42,
    timestamp = 1700000000.5, fps = 29.7 it gives 42, the same double, and
    the single-precision neighbour of 29.7 (within 2^-20, half a unit in the
    last place of binary32 at that magnitude). *)
Theorem frame_header_layout_and_roundtrip :
  (forall a b c header payload,
      Struct.pack_Idf a b c = inr header ->
      length header = 16%nat /\
      firstn 4 header = le_split 4 a /\
      firstn 8 (skipn 4 header) = le_split 8 (Struct.double_bits b) /\
      skipn 12 header = le_split 4 (Struct.single_bits (Struct.to_single c)) /\
      firstn 16 (header ++ payload) = header /\
      skipn 16 (header ++ payload) = payload /\
      exists c', Struct.unpack_Idf header = Some (a, b, c')) /\
  (forall ws last st r rest frame_data header,
      latest_frame st = Some frame_data -> frame_id st <> last ->
      Struct.pack_Idf (frame_id st) (timestamp st) (fps st) = inr header ->
      sends_to ws (firstn 3 (V3.session_loop ws last ({| seen := st; outcome := r |} :: rest)))
      = [Binary (header ++ frame_data)]) /\
  (forall ws last st r rest frame_data header,
      latest_frame st = Some frame_data -> frame_data <> [] -> frame_id st <> last ->
      Struct.pack_Idf (frame_id st) (timestamp st) 0 = inr header ->
      sends_to ws (firstn 3 (V4.session_loop ws last ({| seen := st; outcome := r |} :: rest)))
      = [Binary (header ++ frame_data)]) /\
  (Struct.pack_Idf 42 1700000000.5 29.7 = inr example_header /\
   Struct.unpack_Idf example_header
   = Some (42, 1700000000.5%float, 29.700000762939453%float) /\
   (abs (29.700000762939453 - 29.7) <=? 0x1p-20)%float = true).
Proof.
  split; [|split; [|split]].
  - intros a b c header payload H.
    pose proof (pack_Idf_length _ _ _ _ H) as L.
    apply pack_Idf_inv in H as [R E].
    split; [exact L|].
    rewrite List.firstn_app_l by (symmetry; exact L).
    rewrite List.skipn_app_r by (symmetry; exact L).
    assert (L4 : length (le_split 4 a) = 4%nat) by apply length_le_split.
    assert (L8 : length (le_split 8 (Struct.double_bits b)) = 8%nat)
      by apply length_le_split.
    repeat split.
    + subst header. apply List.firstn_app_l. symmetry; exact L4.
    + subst header. rewrite List.skipn_app_r by (symmetry; exact L4).
      apply List.firstn_app_l. symmetry; exact L8.
    + subst header. rewrite app_assoc. apply List.skipn_app_r.
      rewrite length_app, L4, L8. reflexivity.
    + eexists. unfold Struct.unpack_Idf. rewrite L, Nat.eqb_refl. subst header.
      rewrite List.firstn_app_l by (symmetry; exact L4).
      rewrite List.skipn_app_r by (symmetry; exact L4).
      rewrite List.firstn_app_l by (symmetry; exact L8).
      rewrite !le_combine_split.
      change (2 ^ (Z.of_nat 4 * 8)) with (2 ^ 32).
      change (2 ^ (Z.of_nat 8 * 8)) with (2 ^ 64).
      rewrite (Z.mod_small a) by lia.
      rewrite (Z.mod_small (Struct.double_bits b)) by apply double_bits_range.
      rewrite double_roundtrip. reflexivity.
  - intros ws last st r rest frame_data header Hf Hid Hp.
    cbn [V3.session_loop seen outcome].
    rewrite Hf. destruct (Z.eqb_spec (frame_id st) last); [contradiction|].
    rewrite Hp. cbn [firstn sends_to]. rewrite Pos.eqb_refl. reflexivity.
  - intros ws last st r rest frame_data header Hf Hne Hid Hp.
    cbn [V4.session_loop seen outcome].
    rewrite Hf. destruct frame_data as [|x frame_data]; [contradiction|].
    cbn [Py.truthy andb].
    destruct (Z.eqb_spec (frame_id st) last); [contradiction|]. cbn [negb].
    rewrite Hp. cbn [firstn sends_to]. rewrite Pos.eqb_refl. reflexivity.
  - vm_compute. repeat split.
Qed.

(** C10.  The frame id must fit the unsigned 32-bit header field: for an id
    of 2^32 or more [struct.pack] raises [struct.error] and no message is
    built.  A v3 session that meets such a frame sends nothing and ends (the
    exception is caught by [except Exception]); a v4 session ends with the
    exception leaving the handler. *)
Theorem frame_id_beyond_32_bits_is_refused (a : Z) (b c : float) :
  2 ^ 32 <= a ->
  Struct.pack_Idf a b c = inl StructError /\
  (forall ws last st r rest frame_data,
      frame_id st = a -> latest_frame st = Some frame_data -> last <> a ->
      V3.session_loop ws last ({| seen := st; outcome := r |} :: rest)
      = [Acquire; Release; Discard ws]) /\
  (forall ws last st r rest frame_data,
      frame_id st = a -> latest_frame st = Some frame_data -> frame_data <> [] ->
      last <> a ->
      V4.session_loop ws last ({| seen := st; outcome := r |} :: rest)
      = [Acquire; Release; Discard ws; Raise StructError]).
Proof.
  intros H.
  assert (E : forall b c, Struct.pack_Idf a b c = inl StructError).
  { intros b' c'. unfold Struct.pack_Idf, Struct.pack_I.
    destruct (Z.leb_spec a 4294967295); [lia|]. rewrite andb_false_r. reflexivity. }
  split; [apply E|split].
  - intros ws last st r rest frame_data <- Hf Hl.
    cbn [V3.session_loop seen outcome]. rewrite Hf.
    destruct (Z.eqb_spec (frame_id st) last); [congruence|]. rewrite E. reflexivity.
  - intros ws last st r rest frame_data <- Hf Hne Hl.
    cbn [V4.session_loop seen outcome]. rewrite Hf.
    destruct frame_data; [contradiction|]. cbn [Py.truthy andb].
    destruct (Z.eqb_spec (frame_id st) last); [congruence|]. cbn [negb].
    rewrite E. reflexivity.
Qed.

Lemma frame_id_beyond_32_bits_is_refused_witness :
  2 ^ 32 <= 4294967296 /\
  Struct.pack_Idf 4294967296 1700000000.5 29.7 = inl StructError /\
  Struct.pack_Idf 4294967295 1700000000.5 29.7 <> inl StructError.
Proof.
  split; [lia|]. split.
  - apply (frame_id_beyond_32_bits_is_refused 4294967296 1700000000.5 29.7). lia.
  - vm_compute. discriminate.
Defined.
(** ** Session loops: order of the frames sent *)

Lemma sent_ids_send ws m r tr i :
  frame_id_of m = Some i -> sent_ids ws (Send ws m r :: tr) = i :: sent_ids ws tr.
Proof.
  intros H. unfold sent_ids. cbn [sends_to]. rewrite Pos.eqb_refl.
  cbn [frame_ids]. rewrite H. reflexivity.
Qed.

Lemma sent_ids_status ws m r tr :
  frame_id_of m = None -> sent_ids ws (Send ws m r :: tr) = sent_ids ws tr.
Proof.
  intros H. unfold sent_ids. cbn [sends_to]. rewrite Pos.eqb_refl.
  cbn [frame_ids]. rewrite H. reflexivity.
Qed.

Lemma v1_frame_message_id st frame_data :
  frame_id_of (V1.frame_message st frame_data) = Some (frame_id st).
Proof. reflexivity. Qed.

Lemma v2_frame_message_id st frame_data :
  frame_id_of (V2.frame_message st frame_data) = Some (frame_id st).
Proof. reflexivity. Qed.

Lemma v1_closing_sends_nothing ws r : sent_ids ws (V1.closing ws r) = [].
Proof. destruct r; reflexivity. Qed.

Lemma v1_session_emits ws polls : forall last,
  sent_ids ws (V1.session_loop ws last polls) = emitted v1_verdict last polls.
Proof.
  induction polls as [|p rest IH]; intros last; [reflexivity|].
  cbn [V1.session_loop emitted]. unfold v1_verdict.
  change (sent_ids ws (Acquire :: Release :: ?tr)) with (sent_ids ws tr).
  destruct (last <? frame_id (seen p)); [destruct (latest_frame (seen p))|].
  - rewrite (sent_ids_send _ _ _ _ _ (v1_frame_message_id _ _)). f_equal.
    destruct (outcome p); try apply v1_closing_sends_nothing. apply IH.
  - apply IH.
  - apply IH.
Qed.

Lemma v2_session_emits ws polls : forall last,
  sent_ids ws (V2.session_loop ws last polls) = emitted v2_verdict last polls.
Proof.
  induction polls as [|p rest IH]; intros last; [reflexivity|].
  cbn [V2.session_loop emitted]. unfold v2_verdict.
  destruct (latest_frame (seen p)); [destruct (frame_id (seen p) =? last)|].
  - apply IH.
  - change (sent_ids ws (Acquire :: Release :: ?tr)) with (sent_ids ws tr).
    rewrite (sent_ids_send _ _ _ _ _ (v2_frame_message_id _ _)). f_equal.
    destruct (outcome p); try reflexivity. apply IH.
  - apply IH.
Qed.

Lemma v3_session_emits ws polls : forall last,
  sent_ids ws (V3.session_loop ws last polls) = emitted v3_verdict last polls.
Proof.
  induction polls as [|p rest IH]; intros last; [reflexivity|].
  cbn [V3.session_loop emitted]. unfold v3_verdict.
  destruct (latest_frame (seen p)); [destruct (frame_id (seen p) =? last)|].
  - apply IH.
  - change (sent_ids ws (Acquire :: Release :: ?tr)) with (sent_ids ws tr).
    destruct (Struct.pack_Idf _ _ _) as [e|header] eqn:E; [reflexivity|].
    rewrite (sent_ids_send _ _ _ _ _ (unpack_frame_id _ _ _ _ _ E)). f_equal.
    destruct (outcome p); try reflexivity. apply IH.
  - apply IH.
Qed.

Lemma v4_session_emits ws polls : forall last,
  sent_ids ws (V4.session_loop ws last polls) = emitted v4_verdict last polls.
Proof.
  induction polls as [|p rest IH]; intros last; [reflexivity|].
  cbn [V4.session_loop emitted]. unfold v4_verdict.
  change (sent_ids ws (Acquire :: Release :: ?tr)) with (sent_ids ws tr).
  destruct (latest_frame (seen p)) as [frame_data|]; [|apply IH].
  destruct (Py.truthy (Some frame_data) && negb (frame_id (seen p) =? last));
    [|apply IH].
  destruct (Struct.pack_Idf _ _ _) as [e|header] eqn:E; [reflexivity|].
  rewrite (sent_ids_send _ _ _ _ _ (unpack_frame_id _ _ _ _ _ E)). f_equal.
  destruct (outcome p); try reflexivity. apply IH.
Qed.

Section Emitted.
Variable decide : Z -> VideoState -> verdict.
Hypothesis emit_new : forall last st, decide last st = Emit -> frame_id st <> last.

Lemma emitted_above (polls : list poll) : forall last,
  StronglySorted Z.le (versions polls) ->
  Forall (fun v => last <= v) (versions polls) ->
  StronglySorted Z.lt (emitted decide last polls) /\
  Forall (fun i => last < i) (emitted decide last polls).
Proof.
  induction polls as [|p rest IH]; intros last Hs Hl; cbn [emitted].
  - split; constructor.
  - cbn [versions map] in Hs, Hl. fold (versions rest) in Hs, Hl.
    apply StronglySorted_inv in Hs as [Hs Hp].
    apply Forall_cons_iff in Hl as [Hv Hl]. (* last <= v *)
    destruct (decide last (seen p)) eqn:D.
    + apply IH; assumption.
    + apply emit_new in D.
      destruct (outcome p).
      * destruct (IH (frame_id (seen p)) Hs Hp) as [S1 S2]. split.
        -- constructor; assumption.
        -- constructor; [lia|]. eapply Forall_impl; [exact S2|].
           intros i Hi. simpl in Hi. lia.
      * split; repeat constructor. lia.
      * split; repeat constructor. lia.
    + split; constructor.
Qed.

Lemma emitted_increasing (polls : list poll) : forall last,
  StronglySorted Z.le (versions polls) ->
  StronglySorted Z.lt (emitted decide last polls).
Proof.
  induction polls as [|p rest IH]; intros last Hs; cbn [emitted].
  - constructor.
  - cbn [versions map] in Hs. fold (versions rest) in Hs.
    apply StronglySorted_inv in Hs as [Hs Hp].
    destruct (decide last (seen p)) eqn:D.
    + apply IH; assumption.
    + destruct (outcome p); try (repeat constructor).
      * apply (emitted_above rest _ Hs Hp).
      * apply (emitted_above rest _ Hs Hp).
    + constructor.
Qed.
End Emitted.
Lemma v1_verdict_new last st : v1_verdict last st = Emit -> frame_id st <> last.
Proof.
  unfold v1_verdict. destruct (Z.ltb_spec last (frame_id st)); [|discriminate].
  intros _. lia.
Qed.

Lemma v2_verdict_new last st : v2_verdict last st = Emit -> frame_id st <> last.
Proof.
  unfold v2_verdict. destruct (latest_frame st); [|discriminate].
  destruct (Z.eqb_spec (frame_id st) last); [discriminate|auto].
Qed.

Lemma v3_verdict_new last st : v3_verdict last st = Emit -> frame_id st <> last.
Proof.
  unfold v3_verdict. destruct (latest_frame st); [|discriminate].
  destruct (Z.eqb_spec (frame_id st) last); [discriminate|auto].
Qed.

Lemma v4_verdict_new last st : v4_verdict last st = Emit -> frame_id st <> last.
Proof.
  unfold v4_verdict. destruct (Py.truthy (latest_frame st)); [|discriminate].
  destruct (Z.eqb_spec (frame_id st) last); [discriminate|auto].
Qed.

(** The v1 loop compares with [>]: its frame ids increase whatever the slot
    does. *)
Lemma v1_emitted_increasing_always (polls : list poll) : forall last,
  StronglySorted Z.lt (emitted v1_verdict last polls) /\
  Forall (fun i => last < i) (emitted v1_verdict last polls).
Proof.
  induction polls as [|p rest IH]; intros last; cbn [emitted].
  - split; constructor.
  - destruct (v1_verdict last (seen p)) eqn:D; [apply IH| |split; constructor].
    assert (last < frame_id (seen p)) as Hlt.
    { revert D. unfold v1_verdict.
      destruct (Z.ltb_spec last (frame_id (seen p))); [auto|discriminate]. }
    destruct (IH (frame_id (seen p))) as [S1 S2].
    destruct (outcome p); split; repeat constructor; try assumption.
    eapply Forall_impl; [exact S2|]. intros i Hi. simpl in Hi. lia.
Qed.

Lemma v1_handle_client_emits ws is_connected r0 polls :
  sent_ids ws (V1.handle_client ws is_connected r0 polls)
  = match r0 with Delivered => emitted v1_verdict (-1) polls | _ => [] end.
Proof.
  unfold V1.handle_client.
  change (sent_ids ws (Add ws :: ?tr)) with (sent_ids ws tr).
  rewrite sent_ids_status by reflexivity.
  destruct r0; try reflexivity. apply v1_session_emits.
Qed.

(** C2.  Whenever the versions a session reads from the slot never decrease,
    the ids of the frame messages it sends strictly increase, in every
    variant: a later frame message never carries an id lower than or equal to
    an earlier one.  (Ids may be skipped: a turn sends the version it reads,
    whatever was published in between.) *)
Theorem session_frame_ids_strictly_increase (ws : websocket) (polls : list poll) :
  StronglySorted Z.le (versions polls) ->
  (forall is_connected r0,
      StronglySorted Z.lt (sent_ids ws (V1.handle_client ws is_connected r0 polls))) /\
  StronglySorted Z.lt (sent_ids ws (V2.handle_client ws polls)) /\
  StronglySorted Z.lt (sent_ids ws (V3.handle_client ws polls)) /\
  StronglySorted Z.lt (sent_ids ws (V4.handle_client ws polls)).
Proof.
  intros H. split; [|split; [|split]].
  - intros is_connected r0. rewrite v1_handle_client_emits.
    destruct r0; try constructor.
    apply (emitted_increasing _ v1_verdict_new); exact H.
  - unfold V2.handle_client.
    change (sent_ids ws (Add ws :: ?tr)) with (sent_ids ws tr).
    rewrite v2_session_emits. apply (emitted_increasing _ v2_verdict_new); exact H.
  - unfold V3.handle_client.
    change (sent_ids ws (Add ws :: ?tr)) with (sent_ids ws tr).
    rewrite v3_session_emits. apply (emitted_increasing _ v3_verdict_new); exact H.
  - unfold V4.handle_client.
    change (sent_ids ws (Add ws :: ?tr)) with (sent_ids ws tr).
    rewrite v4_session_emits. apply (emitted_increasing _ v4_verdict_new); exact H.
Qed.

Lemma session_frame_ids_strictly_increase_witness :
  let polls := observed v4_adapter live_batches video_state0 in
  versions polls = [1; 1; 3] /\
  StronglySorted Z.le (versions polls) /\
  sent_ids 7 (V4.handle_client 7 polls) = [1; 3] /\
  StronglySorted Z.lt (sent_ids 7 (V4.handle_client 7 polls)).
Proof.
  cbv zeta.
  assert (E : versions (observed v4_adapter live_batches video_state0) = [1; 1; 3])
    by reflexivity.
  assert (H : StronglySorted Z.le (versions (observed v4_adapter live_batches video_state0))).
  { rewrite E. repeat constructor; lia. }
  split; [exact E|]. split; [exact H|]. split; [vm_compute; reflexivity|].
  exact (proj2 (proj2 (proj2
           (session_frame_ids_strictly_increase 7
              (observed v4_adapter live_batches video_state0) H)))).
Defined.
(** With the slot fed by the variant's own adapter, the condition of C2 holds
    by itself: a session of a running bridge sends strictly increasing frame
    ids. *)
Lemma live_session_frame_ids_increase (ws : websocket) :
  (forall image (imencode : image -> Z -> bool * bytes) q batches is_connected r0,
      StronglySorted Z.lt
        (sent_ids ws (V1.handle_client ws is_connected r0
                        (observed (v1_adapter imencode q) batches video_state0)))) /\
  (forall encode_jpeg q batches,
      StronglySorted Z.lt
        (sent_ids ws (V2.handle_client ws
                        (observed (v2_adapter encode_jpeg q) batches video_state0)))) /\
  (forall encode_jpeg q batches,
      StronglySorted Z.lt
        (sent_ids ws (V3.handle_client ws
                        (observed (v3_adapter encode_jpeg q) batches video_state0)))) /\
  (forall batches,
      StronglySorted Z.lt
        (sent_ids ws (V4.handle_client ws (observed v4_adapter batches video_state0)))).
Proof.
  split; [|split; [|split]]; intros.
  - rewrite v1_handle_client_emits. destruct r0; try constructor.
    apply v1_emitted_increasing_always.
  - unfold V2.handle_client.
    change (sent_ids ws (Add ws :: ?tr)) with (sent_ids ws tr).
    rewrite v2_session_emits. apply (emitted_increasing _ v2_verdict_new).
    apply observed_versions_sorted, v2_counts.
  - unfold V3.handle_client.
    change (sent_ids ws (Add ws :: ?tr)) with (sent_ids ws tr).
    rewrite v3_session_emits. apply (emitted_increasing _ v3_verdict_new).
    apply observed_versions_sorted, v3_counts.
  - unfold V4.handle_client.
    change (sent_ids ws (Add ws :: ?tr)) with (sent_ids ws tr).
    rewrite v4_session_emits. apply (emitted_increasing _ v4_verdict_new).
    apply observed_versions_sorted, v4_counts.
Qed.

(** ** Session loops: the first message *)

Lemma sends_to_app ws tr1 tr2 :
  sends_to ws (tr1 ++ tr2) = sends_to ws tr1 ++ sends_to ws tr2.
Proof.
  induction tr1 as [|a tr1 IH]; [reflexivity|].
  destruct a; cbn [sends_to app]; try exact IH.
  destruct (Pos.eqb ws0 ws); [rewrite IH|]; auto.
Qed.

Lemma binary_frame_only a b c header payload :
  Struct.pack_Idf a b c = inr header -> frame_only (Binary (header ++ payload)).
Proof.
  intros H. split; [|reflexivity]. unfold is_frame.
  rewrite (unpack_frame_id _ _ _ _ _ H). reflexivity.
Qed.

Lemma v1_closing_silent ws r : sends_to ws (V1.closing ws r) = [].
Proof. destruct r; reflexivity. Qed.

Lemma v1_session_sends_frames ws polls : forall last,
  Forall frame_only (sends_to ws (V1.session_loop ws last polls)).
Proof.
  induction polls as [|p rest IH]; intros last; [constructor|].
  cbn [V1.session_loop sends_to].
  destruct (last <? frame_id (seen p)); [destruct (latest_frame (seen p))|];
    cbn [sends_to]; try apply IH.
  rewrite Pos.eqb_refl. constructor; [split; reflexivity|].
  destruct (outcome p); [apply IH| |]; rewrite v1_closing_silent; constructor.
Qed.

Lemma v2_session_sends_frames ws polls : forall last,
  Forall frame_only (sends_to ws (V2.session_loop ws last polls)).
Proof.
  induction polls as [|p rest IH]; intros last; [constructor|].
  cbn [V2.session_loop sends_to].
  destruct (latest_frame (seen p)); [destruct (frame_id (seen p) =? last)|];
    cbn [sends_to]; try apply IH.
  rewrite Pos.eqb_refl. constructor; [split; reflexivity|].
  destruct (outcome p); [apply IH| |]; constructor.
Qed.

Lemma v3_session_sends_frames ws polls : forall last,
  Forall frame_only (sends_to ws (V3.session_loop ws last polls)).
Proof.
  induction polls as [|p rest IH]; intros last; [constructor|].
  cbn [V3.session_loop sends_to].
  destruct (latest_frame (seen p)); [destruct (frame_id (seen p) =? last)|];
    cbn [sends_to]; try apply IH.
  destruct (Struct.pack_Idf _ _ _) as [e|header] eqn:E; cbn [sends_to];
    [constructor|].
  rewrite Pos.eqb_refl. constructor; [exact (binary_frame_only _ _ _ _ _ E)|].
  destruct (outcome p); [apply IH| |]; constructor.
Qed.

Lemma v4_session_sends_frames ws polls : forall last,
  Forall frame_only (sends_to ws (V4.session_loop ws last polls)).
Proof.
  induction polls as [|p rest IH]; intros last; [constructor|].
  cbn [V4.session_loop sends_to].
  destruct (latest_frame (seen p)) as [frame_data|]; cbn [sends_to]; [|apply IH].
  destruct (Py.truthy (Some frame_data) && negb (frame_id (seen p) =? last));
    cbn [sends_to]; [|apply IH].
  destruct (Struct.pack_Idf _ _ _) as [e|header] eqn:E; cbn [sends_to];
    [constructor|].
  rewrite Pos.eqb_refl. constructor; [exact (binary_frame_only _ _ _ _ _ E)|].
  destruct (outcome p); [apply IH| |]; constructor.
Qed.

Lemma v1_broadcast_sends_status ws (ticks : list tick) :
  Forall status_only (sends_to ws (V1.broadcast_status ticks)).
Proof.
  unfold V1.broadcast_status.
  induction ticks as [|t ticks IH]; [constructor|].
  cbn [map concat]. rewrite sends_to_app. apply Forall_app. split; [|exact IH].
  unfold V1.broadcast_tick. rewrite sends_to_app, app_nil_r.
  destruct (bool_decide _); [constructor|]. unfold V1.broadcast.
  induction (elements (registry t)) as [|c l IHl]; [constructor|].
  cbn [map sends_to]. destruct (Pos.eqb c ws); [constructor|]; try exact IHl.
  split; reflexivity.
Qed.

Lemma interleaved_head {A} (P : A -> Prop) (xs ys zs : list A) :
  interleaved xs ys zs ->
  (exists x xs', xs = x :: xs' /\ P x) -> Forall P ys ->
  exists z zs', zs = z :: zs' /\ P z.
Proof.
  intros H. destruct H as [|x xs ys zs H|y xs ys zs H].
  - intros (x & xs' & E & _). discriminate.
  - intros (x' & xs' & [= <- <-] & Px) _. eauto.
  - intros _ Hy. apply Forall_cons_iff in Hy as [Py _]. eauto.
Qed.

(** C7, as the code has it.  A v1 session puts its status message on the
    transport first and only frame messages after it; with the status
    broadcaster writing to the same transport, the first message the consumer
    gets is still a status message.  The session loops of v2, v3 and v4 send
    frame messages only: they have no initial status message. *)
Theorem v1_session_opens_with_status
    (ws : websocket) (is_connected : bool) (r0 : send_result) (polls : list poll) :
  (exists frames,
      sends_to ws (V1.handle_client ws is_connected r0 polls)
      = V1.initial_status is_connected :: frames /\
      status_only (V1.initial_status is_connected) /\
      Forall frame_only frames) /\
  (forall ticks merged,
      interleaved (sends_to ws (V1.handle_client ws is_connected r0 polls))
                  (sends_to ws (V1.broadcast_status ticks)) merged ->
      exists m rest, merged = m :: rest /\ status_only m) /\
  Forall frame_only (sends_to ws (V2.handle_client ws polls)) /\
  Forall frame_only (sends_to ws (V3.handle_client ws polls)) /\
  Forall frame_only (sends_to ws (V4.handle_client ws polls)).
Proof.
  assert (H1 : exists frames,
      sends_to ws (V1.handle_client ws is_connected r0 polls)
      = V1.initial_status is_connected :: frames /\
      status_only (V1.initial_status is_connected) /\
      Forall frame_only frames).
  { unfold V1.handle_client. cbn [sends_to]. rewrite Pos.eqb_refl.
    eexists. split; [reflexivity|]. split; [split; reflexivity|].
    destruct r0; [apply v1_session_sends_frames| |];
      rewrite v1_closing_silent; constructor. }
  split; [exact H1|]. split; [|split; [|split]].
  - intros ticks merged Hm. destruct H1 as (frames & E & Hs & _).
    eapply interleaved_head; [exact Hm| |apply v1_broadcast_sends_status].
    rewrite E. eauto.
  - apply v2_session_sends_frames.
  - apply v3_session_sends_frames.
  - apply v4_session_sends_frames.
Qed.

(** C7 as stated fails on v2, v3 and v4: a session that finds a frame in the
    slot sends it as its first message. *)
Lemma later_variants_open_with_frame :
  (exists m, hd_error (sends_to 1 (V2.handle_client 1 [sees 1])) = Some m /\ frame_only m) /\
  (exists m, hd_error (sends_to 1 (V3.handle_client 1 [sees 1])) = Some m /\ frame_only m) /\
  (exists m, hd_error (sends_to 1 (V4.handle_client 1 [sees 1])) = Some m /\ frame_only m).
Proof.
  repeat split; eexists; (split; [reflexivity|]); vm_compute; split; reflexivity.
Qed.
(** ** Lock discipline *)

Lemma unlocked_without_acquire (tr : list action) :
  forallb (fun a => negb (is_acquire a)) tr = true -> suspends_unlocked false tr = true.
Proof.
  induction tr as [|a tr IH]; [reflexivity|].
  cbn [forallb]. intros H. apply andb_prop in H as [Ha Ht].
  destruct a; cbn [suspends_unlocked negb andb]; auto. discriminate.
Qed.

Lemma v1_closing_unlocked ws r : suspends_unlocked false (V1.closing ws r) = true.
Proof. destruct r; reflexivity. Qed.

(** The v1 session loop releases the lock before it sends or sleeps. *)
Lemma v1_session_suspends_unlocked ws is_connected r0 polls :
  suspends_unlocked false (V1.handle_client ws is_connected r0 polls) = true.
Proof.
  unfold V1.handle_client. cbn [suspends_unlocked negb andb].
  assert (L : forall last, suspends_unlocked false (V1.session_loop ws last polls) = true).
  { induction polls as [|p rest IH]; intros last; [reflexivity|].
    cbn [V1.session_loop suspends_unlocked].
    destruct (last <? frame_id (seen p)); [destruct (latest_frame (seen p))|];
      cbn [suspends_unlocked negb andb]; try apply IH.
    destruct (outcome p); [apply IH| |]; reflexivity. }
  destruct r0; [apply L| |]; reflexivity.
Qed.

(** So does the v4 session loop. *)
Lemma v4_session_suspends_unlocked ws polls :
  suspends_unlocked false (V4.handle_client ws polls) = true.
Proof.
  unfold V4.handle_client. cbn [suspends_unlocked].
  generalize (-1). induction polls as [|p rest IH]; intros last; [reflexivity|].
  cbn [V4.session_loop suspends_unlocked].
  destruct (latest_frame (seen p)) as [frame_data|];
    cbn [suspends_unlocked negb andb]; [|apply IH].
  destruct (Py.truthy (Some frame_data) && negb (frame_id (seen p) =? last));
    cbn [suspends_unlocked negb andb]; [|apply IH].
  destruct (Struct.pack_Idf _ _ _); cbn [suspends_unlocked negb andb]; [reflexivity|].
  destruct (outcome p); [apply IH| |]; reflexivity.
Qed.

(** The broadcasters never take the lock. *)
Lemma broadcasters_suspend_unlocked (ticks : list tick) :
  suspends_unlocked false (V1.broadcast_status ticks) = true /\
  suspends_unlocked false (V2.broadcast_status ticks) = true.
Proof.
  split; apply unlocked_without_acquire;
    unfold V1.broadcast_status, V2.broadcast_status;
    (induction ticks as [|t ticks IH]; [reflexivity|]);
    cbn [map concat]; rewrite forallb_app, IH, andb_true_r.
  - unfold V1.broadcast_tick, V1.broadcast. rewrite forallb_app, andb_true_r.
    destruct (bool_decide _); [reflexivity|].
    induction (elements (registry t)); [reflexivity|]. exact IHl.
  - unfold V2.broadcast_tick. cbn [forallb is_acquire negb andb].
    destruct (bool_decide _); [reflexivity|].
    induction (elements (registry t)); [reflexivity|]. exact IHl.
Qed.

(** C8, where the code departs from it.  A v2 or v3 session that finds no
    new frame sleeps inside [with video_state.lock:]: the lock is held across
    the suspension. *)
Theorem v2_v3_sessions_sleep_holding_lock :
  V2.handle_client 1 [waiting] = [Add 1; Acquire; Sleep 0.01; Release] /\
  suspends_unlocked false (V2.handle_client 1 [waiting]) = false /\
  V3.handle_client 1 [waiting] = [Add 1; Acquire; Sleep 0.005; Release] /\
  suspends_unlocked false (V3.handle_client 1 [waiting]) = false.
Proof. repeat split. Qed.
(** ** Status broadcast *)

Lemma fan_out_sends (ws : websocket) (m : message) (res : websocket -> send_result)
    (l : list websocket) :
  NoDup l -> ws ∈ l ->
  sends_to ws (map (fun c => Send c m (res c)) l) = [m] /\
  (res ws = Delivered -> delivered_to ws (map (fun c => Send c m (res c)) l) = [m]).
Proof.
  assert (Hout : forall l', ws ∉ l' ->
            sends_to ws (map (fun c => Send c m (res c)) l') = [] /\
            delivered_to ws (map (fun c => Send c m (res c)) l') = []).
  { induction l' as [|c l' IH]; intros Hn; [split; reflexivity|].
    apply not_elem_of_cons in Hn as [Hne Hn]. destruct (IH Hn) as [IH1 IH2].
    cbn [map sends_to delivered_to].
    destruct (Pos.eqb_spec c ws); [congruence|]. rewrite IH1, IH2.
    destruct (res c); split; reflexivity. }
  induction l as [|c l IH]; intros Hd Hin.
  - apply elem_of_nil in Hin. contradiction.
  - apply NoDup_cons in Hd as [Hc Hd]. cbn [map sends_to delivered_to].
    apply elem_of_cons in Hin as [->|Hin].
    + rewrite Pos.eqb_refl. destruct (Hout l Hc) as [-> E]. split; [reflexivity|].
      intros ->. rewrite E. reflexivity.
    + destruct (Pos.eqb_spec c ws) as [->|Hne]; [contradiction|].
      destruct (IH Hd Hin) as [IH1 IH2]. split; [exact IH1|].
      intros Hr. destruct (res c); apply IH2, Hr.
Qed.

(** C9.  On a tick of the status broadcaster (v1 and v2; v3 and v4 have
    none), every session registered at that moment is sent exactly one status
    message, built from the connectivity flag, the rate and the number of
    registered sessions; it is delivered to the session whenever the send to
    that very session goes through, whatever happens to the sends to the
    other sessions. *)
Theorem status_broadcast_reaches_every_session (t : tick) (ws : websocket) :
  ws ∈ registry t ->
  status_of (at_tick t) (registry t) (V1.status_message (at_tick t) (registry t)) /\
  status_of (at_tick t) (registry t) (V2.status_message (at_tick t) (registry t)) /\
  sends_to ws (V1.broadcast_tick t) = [V1.status_message (at_tick t) (registry t)] /\
  sends_to ws (V2.broadcast_tick t) = [V2.status_message (at_tick t) (registry t)] /\
  (result t ws = Delivered ->
     delivered_to ws (V1.broadcast_tick t) = [V1.status_message (at_tick t) (registry t)] /\
     delivered_to ws (V2.broadcast_tick t) = [V2.status_message (at_tick t) (registry t)]).
Proof.
  intros Hin.
  assert (Hne : bool_decide (registry t = ∅) = false).
  { apply bool_decide_eq_false_2. intros E. rewrite E in Hin.
    apply elem_of_empty in Hin. exact Hin. }
  assert (Hl : ws ∈ elements (registry t)) by (apply elem_of_elements; exact Hin).
  pose proof (NoDup_elements (registry t)) as Hd.
  destruct (fan_out_sends ws (V1.status_message (at_tick t) (registry t)) (result t)
              _ Hd Hl) as [S1 D1].
  destruct (fan_out_sends ws (V2.status_message (at_tick t) (registry t)) (result t)
              _ Hd Hl) as [S2 D2].
  assert (Hd_app : forall tr, delivered_to ws (tr ++ [Sleep 1.0]) = delivered_to ws tr).
  { induction tr as [|a tr IH]; [reflexivity|].
    destruct a; cbn [app delivered_to]; try exact IH.
    destruct r; try exact IH. destruct (Pos.eqb ws0 ws); [rewrite IH|]; auto. }
  split; [|split; [|split; [|split]]].
  - eexists. split; [reflexivity|]. repeat split.
  - eexists. split; [reflexivity|]. repeat split.
  - unfold V1.broadcast_tick, V1.broadcast. rewrite Hne, sends_to_app, S1. reflexivity.
  - unfold V2.broadcast_tick. rewrite Hne. cbn [sends_to]. exact S2.
  - intros Hr. split.
    + unfold V1.broadcast_tick, V1.broadcast. rewrite Hne, Hd_app. exact (D1 Hr).
    + unfold V2.broadcast_tick. rewrite Hne. cbn [delivered_to]. exact (D2 Hr).
Qed.

Lemma status_broadcast_reaches_every_session_witness :
  (3%positive ∈ registry three_clients) /\
  result three_clients 2 = Failed /\
  delivered_to 2 (V2.broadcast_tick three_clients) = [] /\
  delivered_to 3 (V2.broadcast_tick three_clients)
  = [V2.status_message (at_tick three_clients) (registry three_clients)].
Proof.
  assert (H : 3%positive ∈ registry three_clients) by (vm_compute; reflexivity).
  split; [exact H|]. split; [reflexivity|]. split; [vm_compute; reflexivity|].
  exact (proj2 (proj2 (proj2 (proj2 (proj2
           (status_broadcast_reaches_every_session three_clients 3 H)))) eq_refl)).
Defined.
(** ** Start-up *)

Lemma wait_for_video_pauses (n k : nat) (connected_at : nat -> bool) :
  Forall (fun e => e = Pause 0.1) (fst (V1.wait_for_video n k connected_at)).
Proof.
  revert k. induction n as [|n IH]; intros k; cbn [V1.wait_for_video]; [constructor|].
  destruct (connected_at k); [constructor|].
  specialize (IH (S k)). destruct (V1.wait_for_video n (S k) connected_at).
  constructor; [reflexivity|exact IH].
Qed.

Lemma v1_main_always_serves (port : Z) (connected_at : nat -> bool) :
  serves (V1.main port connected_at) /\ ~ exits (V1.main port connected_at).
Proof.
  unfold V1.main.
  pose proof (wait_for_video_pauses 50 0 connected_at) as Hw.
  destruct (V1.wait_for_video 50 0 connected_at) as [waiting k]. cbn [fst] in Hw.
  split.
  - exists port. right. right. apply in_or_app. right. apply in_or_app. right.
    left. reflexivity.
  - intros [code H]. destruct H as [H|[H|H]]; try discriminate.
    apply in_app_or in H as [H|H].
    + rewrite List.Forall_forall in Hw. apply Hw in H. discriminate.
    + apply in_app_or in H as [H|[H|[]]]; [|discriminate].
      destruct (connected_at k); [destruct H|destruct H as [H|[]]; discriminate].
Qed.

Lemma start_fails_iff (pipeline_str : string) (env : gst_env) :
  fst (V2.start pipeline_str env) = negb (cannot_start env) /\
  fst (V3.start pipeline_str env) = negb (cannot_start env) /\
  fst (V4.start pipeline_str env) = negb (cannot_start env).
Proof.
  unfold V2.start, V3.start, V4.start, cannot_start.
  destruct (launch_error env); [|destruct (state_change_failure env)];
    repeat split.
Qed.

(** C6, as the code has it.  In v2, v3 and v4, when the video source cannot
    be started the process prints a line saying so, calls [sys.exit(1)] as
    its last act, and never enters the serving loop.  In v1 the main thread
    never exits on its own: whatever the capture thread achieved, it ends up
    serving. *)
Theorem start_failure_exits_before_serving
    (port : Z) (pipeline_str : string) (env : gst_env) :
  cannot_start env = true ->
  (reports_failure (V2.main port pipeline_str env) /\
   exits_with 1 (V2.main port pipeline_str env) /\
   ~ serves (V2.main port pipeline_str env)) /\
  (reports_failure (V3.main port pipeline_str env) /\
   exits_with 1 (V3.main port pipeline_str env) /\
   ~ serves (V3.main port pipeline_str env)) /\
  (reports_failure (V4.main port pipeline_str env) /\
   exits_with 1 (V4.main port pipeline_str env) /\
   ~ serves (V4.main port pipeline_str env)) /\
  (forall connected_at,
     serves (V1.main port connected_at) /\ ~ exits (V1.main port connected_at)).
Proof.
  intros H.
  assert (Hno : forall tr : list process_event,
            (forall e, In e tr -> is_log e = true \/ e = StartThread "glib_thread_func"
                                  \/ e = StartThread "glib_main"
                                  \/ (exists s, e = Pause s) \/ e = Exit 1) ->
            ~ serves tr).
  { intros tr Htr [p Hp]. apply Htr in Hp.
    destruct Hp as [Hp|[Hp|[Hp|[[s Hp]|Hp]]]]; discriminate. }
  unfold cannot_start in H.
  split; [|split; [|split]]; [| | |intros; apply v1_main_always_serves].
  - unfold V2.main, V2.start.
    destruct (launch_error env) as [e|]; [|rewrite H]; cbn [app].
    + split; [|split; [reflexivity|]].
      * exists "[Main] Failed to start video receiver", 7%nat.
        split; [|reflexivity]. cbn [In]. tauto.
      * apply Hno. cbn [In]. intros ev Hev.
        repeat (destruct Hev as [<-|Hev]; [eauto 6|]). destruct Hev.
    + split; [|split; [reflexivity|]].
      * exists "[Main] Failed to start video receiver", 7%nat.
        split; [|reflexivity]. cbn [In]. tauto.
      * apply Hno. cbn [In]. intros ev Hev.
        repeat (destruct Hev as [<-|Hev]; [eauto 6|]). destruct Hev.
  - unfold V3.main, V3.start.
    destruct (launch_error env) as [e|]; [|rewrite H]; cbn [app].
    + split; [|split; [reflexivity|]].
      * exists ("[GStreamer] Failed to create pipeline: " ++ e)%string, 12%nat.
        split; [|reflexivity]. cbn [In]. tauto.
      * apply Hno. cbn [In]. intros ev Hev.
        repeat (destruct Hev as [<-|Hev]; [eauto 6|]). destruct Hev.
    + split; [|split; [reflexivity|]].
      * exists "[GStreamer] Failed to start pipeline", 12%nat.
        split; [|reflexivity]. cbn [In]. tauto.
      * apply Hno. cbn [In]. intros ev Hev.
        repeat (destruct Hev as [<-|Hev]; [eauto 6|]). destruct Hev.
  - unfold V4.main, V4.start.
    destruct (launch_error env) as [e|]; [|rewrite H]; cbn [app].
    + split; [|split; [reflexivity|]].
      * exists "[Main] Failed to start video receiver", 7%nat.
        split; [|reflexivity]. cbn [In]. tauto.
      * apply Hno. cbn [In]. intros ev Hev.
        repeat (destruct Hev as [<-|Hev]; [eauto 6|]). destruct Hev.
    + split; [|split; [reflexivity|]].
      * exists "[Main] Failed to start video receiver", 7%nat.
        split; [|reflexivity]. cbn [In]. tauto.
      * apply Hno. cbn [In]. intros ev Hev.
        repeat (destruct Hev as [<-|Hev]; [eauto 6|]). destruct Hev.
Qed.

Lemma start_failure_exits_before_serving_witness :
  let env := {| launch_error := None; state_change_failure := true |} in
  cannot_start env = true /\
  V2.main 9000 "udpsrc ! appsink" env
  = [StartThread "glib_thread_func"; Pause 0.5;
     Log ("[GStreamer] Pipeline:" ++ nl ++ "udpsrc ! appsink" ++ nl)%string;
     Log "[GStreamer] Failed to start pipeline";
     Log "[Main] Failed to start video receiver"; Exit 1] /\
  exits_with 1 (V2.main 9000 "udpsrc ! appsink" env).
Proof.
  split; [reflexivity|]. split; [reflexivity|].
  exact (proj1 (proj2 (proj1
    (start_failure_exits_before_serving 9000 "udpsrc ! appsink"
       {| launch_error := None; state_change_failure := true |} eq_refl)))).
Defined.

(** C6 as stated fails on v1: when the capture cannot be opened the flag
    [connected] stays false, the main thread waits its five seconds, prints a
    warning and starts serving; no exit status is produced. *)
Lemma v1_serves_without_video :
  let st := V1.video_capture_thread always_encodes 80 false [] video_state0 in
  let tr := V1.main 9000 (fun _ => connected st) in
  connected st = false /\
  In (Log "[VideoCapture] ERROR: Failed to open VideoCapture")
     (V1.capture_log "udpsrc ! appsink" false) /\
  In (Log "[Main] WARNING: Video not connected yet, but starting WebSocket server anyway") tr /\
  List.last tr (Log "") = Serve 9000 /\
  serves tr /\ ~ exits tr.
Proof.
  cbv zeta. split; [reflexivity|]. split; [cbn; tauto|].
  split; [|split; [reflexivity|apply v1_main_always_serves]].
  vm_compute. do 52 right. left. reflexivity.
Qed.
(** * Further properties *)

(** ** Producer: what the slot holds *)

Lemma newest_frame_snoc fs f : newest_frame (fs ++ [f]) = Some f.
Proof. unfold newest_frame. rewrite map_app. apply last_last. Qed.

Lemma published_app {I} (frame_of : I -> option (bytes * float)) xs ys :
  published frame_of (xs ++ ys) = published frame_of xs ++ published frame_of ys.
Proof.
  induction xs as [|x xs IH]; [reflexivity|].
  cbn [app published]. destruct (frame_of x); [cbn [app]; f_equal|]; exact IH.
Qed.

Section NewestFacts.
Context {I : Type} (P : adapter I) (frame_of : I -> option (bytes * float)).
Hypothesis publishes : forall i st payload t, frame_of i = Some (payload, t) ->
  latest_frame (step P i st) = Some payload /\
  timestamp (step P i st) = t /\
  frame_id (step P i st) = frame_id st + 1.
Hypothesis skips : forall i st, frame_of i = None -> step P i st = st.

Lemma adapter_holds_newest : holds_newest P frame_of.
Proof.
  intros inputs. cbv zeta.
  induction inputs as [|i inputs IH] using rev_ind; [split; reflexivity|].
  rewrite run_snoc, published_app. cbn [published].
  destruct IH as [IHn IHs]. destruct (frame_of i) as [[payload t]|] eqn:E.
  - destruct (publishes i (run P inputs video_state0) payload t E) as (L & T & N).
    rewrite newest_frame_snoc, length_app, N, IHn. cbn [length].
    split; [lia|split; assumption].
  - rewrite (skips _ _ E), app_nil_r. split; assumption.
Qed.
End NewestFacts.

Lemma holds_newest_empty_iff {I} (P : adapter I) frame_of :
  holds_newest P frame_of ->
  forall inputs,
    latest_frame (run P inputs video_state0) = None
    <-> frame_id (run P inputs video_state0) = 0.
Proof.
  intros H inputs. destruct (H inputs) as [N S]. rewrite N.
  destruct (published frame_of inputs) as [|f fs] using rev_ind.
  - cbn in S. rewrite S. split; reflexivity.
  - rewrite newest_frame_snoc in S. destruct f as [payload t]. destruct S as [S _].
    rewrite S, length_app. cbn [length]. split; [discriminate|lia].
Qed.

Lemma v1_holds_newest {image} (imencode : image -> Z -> bool * bytes) q :
  holds_newest (v1_adapter imencode q) (v1_frame_of imencode q).
Proof.
  apply adapter_holds_newest; cbn [step v1_adapter];
    unfold v1_frame_of, V1.capture_iteration; intros i st.
  - intros payload t. destruct (V1.ret i); [|discriminate].
    destruct (V1.frame i) as [f|]; [|discriminate].
    destruct (imencode f q) as [[] buf]; [|discriminate].
    intros [= <- <-]. repeat split.
  - destruct (V1.ret i); [|reflexivity].
    destruct (V1.frame i) as [f|]; [|reflexivity].
    destruct (imencode f q) as [[] buf]; [discriminate|reflexivity].
Qed.

Lemma v2_holds_newest encode_jpeg q :
  holds_newest (v2_adapter encode_jpeg q) (encoded_frame_of encode_jpeg q).
Proof.
  apply adapter_holds_newest; cbn [step v2_adapter];
    unfold encoded_frame_of, V2.on_new_sample; intros i st.
  - intros payload t. destruct (sample i) as [s|]; [|discriminate].
    destruct (map_success s); [|discriminate].
    destruct (encode_jpeg _ _ _ _); [|discriminate].
    intros [= <- <-]. repeat split.
  - destruct (sample i) as [s|]; [|reflexivity].
    destruct (map_success s); [|reflexivity].
    destruct (encode_jpeg _ _ _ _); [discriminate|reflexivity].
Qed.

Lemma v3_holds_newest encode_jpeg q :
  holds_newest (v3_adapter encode_jpeg q) (encoded_frame_of encode_jpeg q).
Proof.
  apply adapter_holds_newest; cbn [step v3_adapter];
    unfold encoded_frame_of, V3.on_new_sample; intros i st.
  - intros payload t. destruct (sample i) as [s|]; [|discriminate].
    destruct (map_success s); [|discriminate].
    destruct (encode_jpeg _ _ _ _); [|discriminate].
    intros [= <- <-]. repeat split.
  - destruct (sample i) as [s|]; [|reflexivity].
    destruct (map_success s); [|reflexivity].
    destruct (encode_jpeg _ _ _ _); [discriminate|reflexivity].
Qed.

Lemma v4_holds_newest : holds_newest v4_adapter v4_frame_of.
Proof.
  apply adapter_holds_newest; cbn [step v4_adapter]; unfold v4_frame_of; intros i st.
  - intros payload t E.
    assert (Hp : V4.produces i = true).
    { unfold V4.produces. destruct (sample i) as [s|]; [|discriminate].
      destruct (map_success s); [reflexivity|discriminate]. }
    destruct (v4_published i st Hp) as [jpeg Hs]. revert Hs E.
    unfold V4.on_new_sample. destruct (sample i) as [s|]; [|discriminate].
    destruct (map_success s); [|discriminate].
    intros Hs [= <- <-]. clear Hs.
    destruct (_ =? 0); [destruct (V4.window_rate _)|]; repeat split.
  - intros E. apply v4_dropped. unfold V4.produces.
    destruct (sample i) as [s|]; [|reflexivity].
    destruct (map_success s); [discriminate|reflexivity].
Qed.

(** X1.  Latest wins, with the right pairing: in every variant, after any
    inputs from the initial state, the frame id is the number of frames
    published so far and the slot holds the bytes of the newest published
    frame together with that frame's own timestamp; before the first
    publication the state is still the initial one. *)
Theorem slot_holds_newest_published_frame :
  (forall image (imencode : image -> Z -> bool * bytes) q,
      holds_newest (v1_adapter imencode q) (v1_frame_of imencode q)) /\
  (forall encode_jpeg q,
      holds_newest (v2_adapter encode_jpeg q) (encoded_frame_of encode_jpeg q)) /\
  (forall encode_jpeg q,
      holds_newest (v3_adapter encode_jpeg q) (encoded_frame_of encode_jpeg q)) /\
  holds_newest v4_adapter v4_frame_of.
Proof.
  split; [|split; [|split]].
  - intros. apply v1_holds_newest.
  - apply v2_holds_newest.
  - apply v3_holds_newest.
  - apply v4_holds_newest.
Qed.

(** X2.  The slot is empty exactly as long as the frame id is 0: a reader
    that finds a frame id above 0 finds a frame. *)
Theorem slot_empty_iff_frame_id_zero :
  (forall image (imencode : image -> Z -> bool * bytes) q inputs,
      latest_frame (run (v1_adapter imencode q) inputs video_state0) = None
      <-> frame_id (run (v1_adapter imencode q) inputs video_state0) = 0) /\
  (forall encode_jpeg q inputs,
      latest_frame (run (v2_adapter encode_jpeg q) inputs video_state0) = None
      <-> frame_id (run (v2_adapter encode_jpeg q) inputs video_state0) = 0) /\
  (forall encode_jpeg q inputs,
      latest_frame (run (v3_adapter encode_jpeg q) inputs video_state0) = None
      <-> frame_id (run (v3_adapter encode_jpeg q) inputs video_state0) = 0) /\
  (forall inputs,
      latest_frame (run v4_adapter inputs video_state0) = None
      <-> frame_id (run v4_adapter inputs video_state0) = 0).
Proof.
  split; [|split; [|split]]; intros.
  - apply (holds_newest_empty_iff _ _ (v1_holds_newest imencode q)).
  - apply (holds_newest_empty_iff _ _ (v2_holds_newest encode_jpeg q)).
  - apply (holds_newest_empty_iff _ _ (v3_holds_newest encode_jpeg q)).
  - apply (holds_newest_empty_iff _ _ v4_holds_newest).
Qed.
(** ** Producer: connectivity *)

Lemma same_but_connected_refl st : same_but_connected st st.
Proof. reflexivity. Qed.

Lemma same_but_connected_set b s1 s2 :
  same_but_connected s1 s2 -> same_but_connected (V1.set_connected b s1) s2.
Proof. unfold same_but_connected. intros <-. reflexivity. Qed.

Lemma same_but_connected_fields s1 s2 :
  same_but_connected s1 s2 ->
  latest_frame s1 = latest_frame s2 /\ frame_id s1 = frame_id s2 /\
  timestamp s1 = timestamp s2 /\ fps s1 = fps s2 /\
  frame_times s1 = frame_times s2 /\ width s1 = width s2 /\ height s1 = height s2.
Proof.
  unfold same_but_connected, V1.set_connected. intros [= -> -> -> -> -> -> -> _].
  repeat split.
Qed.

Lemma v2_sample_ignores_connected encode_jpeg q p s1 s2 :
  same_but_connected s1 s2 ->
  same_but_connected (snd (V2.on_new_sample encode_jpeg q p s1))
                     (snd (V2.on_new_sample encode_jpeg q p s2)) /\
  connected (snd (V2.on_new_sample encode_jpeg q p s1))
  = if V2.produces encode_jpeg q p then true else connected s1.
Proof.
  intros H. pose proof (same_but_connected_fields _ _ H) as (_ & Hi & _ & Hf & Ht & _).
  assert (He : new_frame_event s1 = new_frame_event s2).
  { revert H. unfold same_but_connected, V1.set_connected. congruence. }
  unfold V2.on_new_sample, V2.produces.
  destruct (sample p) as [s|]; [|split; [exact H|reflexivity]].
  destruct (map_success s); [|split; [exact H|reflexivity]].
  destruct (encode_jpeg _ _ _ _); [|split; [exact H|reflexivity]].
  cbn [snd andb]. split; [|reflexivity].
  unfold same_but_connected, V2.store, V1.set_connected. cbn.
  rewrite Hi, Hf, Ht, He. reflexivity.
Qed.

Lemma v3_sample_ignores_connected encode_jpeg q p s1 s2 :
  same_but_connected s1 s2 ->
  same_but_connected (snd (V3.on_new_sample encode_jpeg q p s1))
                     (snd (V3.on_new_sample encode_jpeg q p s2)) /\
  connected (snd (V3.on_new_sample encode_jpeg q p s1))
  = if V3.produces encode_jpeg q p then true else connected s1.
Proof.
  intros H. pose proof (same_but_connected_fields _ _ H) as (_ & Hi & _ & Hf & Ht & _).
  unfold V3.on_new_sample, V3.produces.
  destruct (sample p) as [s|]; [|split; [exact H|reflexivity]].
  destruct (map_success s); [|split; [exact H|reflexivity]].
  destruct (encode_jpeg _ _ _ _); [|split; [exact H|reflexivity]].
  cbn [snd andb]. split; [|reflexivity].
  unfold same_but_connected, V3.store, V1.set_connected. cbn.
  rewrite Hi, Hf, Ht. reflexivity.
Qed.

Lemma pulls_of_pulled evs p : pulls_of (evs ++ [Pulled p]) = pulls_of evs ++ [p].
Proof. unfold pulls_of. rewrite flat_map_app. reflexivity. Qed.

Lemma pulls_of_posted evs m : pulls_of (evs ++ [Posted m]) = pulls_of evs.
Proof. unfold pulls_of. rewrite flat_map_app. apply app_nil_r. Qed.

(** X3.  Bus messages touch nothing but the connectivity flag.  Whatever
    samples and bus messages arrive, the slot, frame id, timestamp, rate,
    window and dimensions are those the samples alone would have produced
    (the last good frame stays visible after an error), and the flag is what
    the last telling event made it: raised by a published frame, lowered by
    ERROR or EOS in v2 and by ERROR in v3 (v3 ignores EOS).  In v4 bus
    messages change nothing at all. *)
Theorem bus_messages_only_move_connectivity :
  (forall encode_jpeg q evs st,
      same_but_connected (v2_source_run encode_jpeg q evs st)
                         (V2.receive encode_jpeg q (pulls_of evs) st) /\
      connected (v2_source_run encode_jpeg q evs st)
      = link_after (V2.produces encode_jpeg q) v2_drops evs (connected st)) /\
  (forall encode_jpeg q evs st,
      same_but_connected (v3_source_run encode_jpeg q evs st)
                         (V3.receive encode_jpeg q (pulls_of evs) st) /\
      connected (v3_source_run encode_jpeg q evs st)
      = link_after (V3.produces encode_jpeg q) v3_drops evs (connected st)) /\
  (forall evs st, v4_source_run evs st = V4.receive (pulls_of evs) st).
Proof.
  split; [|split].
  - intros encode_jpeg q evs st.
    induction evs as [|e evs [IH1 IH2]] using rev_ind; [split; reflexivity|].
    unfold v2_source_run, link_after, V2.receive in *.
    destruct e as [p|m].
    + rewrite pulls_of_pulled, !fold_left_app. cbn [fold_left]. rewrite <- IH2.
      apply v2_sample_ignores_connected. exact IH1.
    + rewrite pulls_of_posted, !fold_left_app. cbn [fold_left]. rewrite <- IH2.
      destruct m as [err debug|err| |[] old new|]; cbn [fst v2_on_bus_message v2_drops];
        try (split; [exact IH1|reflexivity]);
        (split; [apply same_but_connected_set; exact IH1|reflexivity]).
  - intros encode_jpeg q evs st.
    induction evs as [|e evs [IH1 IH2]] using rev_ind; [split; reflexivity|].
    unfold v3_source_run, link_after, V3.receive in *.
    destruct e as [p|m].
    + rewrite pulls_of_pulled, !fold_left_app. cbn [fold_left]. rewrite <- IH2.
      apply v3_sample_ignores_connected. exact IH1.
    + rewrite pulls_of_posted, !fold_left_app. cbn [fold_left]. rewrite <- IH2.
      destruct m as [err debug|err| |[] old new|]; cbn [fst v3_on_bus_message v3_drops];
        try (split; [exact IH1|reflexivity]);
        (split; [apply same_but_connected_set; exact IH1|reflexivity]).
  - intros evs st.
    induction evs as [|e evs IH] using rev_ind; [reflexivity|].
    unfold v4_source_run, V4.receive in *.
    destruct e as [p|m].
    + rewrite pulls_of_pulled, !fold_left_app. cbn [fold_left]. rewrite IH. reflexivity.
    + rewrite pulls_of_posted, fold_left_app. cbn [fold_left]. rewrite IH.
      destruct m as [err debug|err| |[] old new|]; reflexivity.
Qed.

(** A frame, an end of stream, a frame: v2 ends connected with frame 2 in
    the slot; between the two frames it is disconnected with frame 1 still
    in the slot. *)
Example v2_recovers_after_outage :
  let enc := fun (_ _ : Z) (data : bytes) (_ : Z) => Some data in
  let mid := v2_source_run enc 80 (firstn 2 outage) video_state0 in
  let st := v2_source_run enc 80 outage video_state0 in
  (connected mid, frame_id mid, latest_frame mid) = (false, 1, Some [Byte.xff]) /\
  (connected st, frame_id st) = (true, 2).
Proof. split; reflexivity. Qed.

Lemma v1_iteration_keeps_connected {image} (imencode : image -> Z -> bool * bytes)
    q c st :
  connected (V1.capture_iteration imencode q c st) = connected st.
Proof.
  unfold V1.capture_iteration. destruct (V1.ret c); [|reflexivity].
  destruct (V1.frame c) as [f|]; [|reflexivity].
  destruct (imencode f q) as [[] buf]; reflexivity.
Qed.

Lemma v1_iteration_ignores_connected {image} (imencode : image -> Z -> bool * bytes)
    q c s1 s2 :
  same_but_connected s1 s2 ->
  same_but_connected (V1.capture_iteration imencode q c s1)
                     (V1.capture_iteration imencode q c s2).
Proof.
  intros H. pose proof (same_but_connected_fields _ _ H)
    as (_ & Hi & _ & Hf & Ht & Hw & Hh).
  assert (He : new_frame_event s1 = new_frame_event s2).
  { revert H. unfold same_but_connected, V1.set_connected. congruence. }
  unfold V1.capture_iteration. destruct (V1.ret c); [|exact H].
  destruct (V1.frame c) as [f|]; [|exact H].
  destruct (imencode f q) as [[] buf]; [|exact H].
  unfold same_but_connected, V1.store, V1.set_connected. cbn.
  rewrite Hi, Hf, Ht, Hw, Hh, He. reflexivity.
Qed.

(** X4.  In v1 the connectivity flag is decided once, when the capture is
    opened, and never changes afterwards: after any number of loop turns it
    equals [cap.isOpened()], whether reads and encodes succeed or not.  If
    the capture did not open nothing else changes; if it did, everything else
    is what the capture loop makes of the samples. *)
Theorem v1_connected_is_decided_at_open :
  forall image (imencode : image -> Z -> bool * bytes) q opened cs st,
    connected (V1.video_capture_thread imencode q opened cs st) = opened /\
    same_but_connected
      (V1.video_capture_thread imencode q opened cs st)
      (if opened then V1.capture_loop imencode q cs st else st).
Proof.
  intros image imencode q opened cs st. unfold V1.video_capture_thread.
  destruct opened; [|split; reflexivity].
  assert (H : forall s1 s2, same_but_connected s1 s2 ->
            connected (V1.capture_loop imencode q cs s1) = connected s1 /\
            same_but_connected (V1.capture_loop imencode q cs s1)
                               (V1.capture_loop imencode q cs s2)).
  { unfold V1.capture_loop. induction cs as [|c cs IH]; intros s1 s2 E; [auto|].
    cbn [fold_left].
    destruct (IH _ _ (v1_iteration_ignores_connected imencode q c _ _ E)) as [C S].
    rewrite C, v1_iteration_keeps_connected. auto. }
  apply (H (V1.set_connected true st) st). reflexivity.
Qed.
(** ** Producer: the rate *)

Lemma binary_round_aux_sign prec emax s m e l :
  s = false -> not_negative (binary_round_aux prec emax s m e l).
Proof.
  intros ->. unfold binary_round_aux.
  destruct (shr_fexp prec emax m e l) as [mrs' e'].
  destruct (shr_fexp prec emax _ e' loc_Exact) as [mrs'' e''].
  destruct (shr_m mrs''); cbn; auto. destruct (_ <=? _); cbn; auto.
Qed.

Lemma of_uint63_not_negative n : not_negative (Prim2SF (of_uint63 n)).
Proof.
  rewrite FloatAxioms.of_uint63_spec. unfold binary_normalize.
  pose proof (Uint63.to_Z_bounded n) as B.
  destruct (Uint63.to_Z n) eqn:E; [reflexivity| |lia].
  unfold binary_round. destruct (shl_align _ _ _).
  apply binary_round_aux_sign. reflexivity.
Qed.

(** A float above zero is a positive finite number or plus infinity. *)
Lemma positive_spec (d : float) :
  (0 <? d)%float = true ->
  match Prim2SF d with
  | S754_finite false _ _ | S754_infinity false => True
  | _ => False
  end.
Proof.
  rewrite FloatAxioms.ltb_spec. change (Prim2SF 0) with (S754_zero false).
  unfold SFltb, SFcompare.
  destruct (Prim2SF d) as [s|[]| |[] m e]; try discriminate; auto.
Qed.

Lemma div_not_negative (x d : float) :
  not_negative (Prim2SF x) -> (0 <? d)%float = true ->
  not_negative (Prim2SF (x / d)).
Proof.
  intros Hx Hd. apply positive_spec in Hd.
  rewrite FloatAxioms.div_spec. unfold SF64div, SFdiv.
  destruct (Prim2SF x) as [sx|sx| |sx mx ex]; cbn in Hx; subst;
  destruct (Prim2SF d) as [sd|[]| |[] md ed]; try contradiction; cbn; auto.
  destruct (SFdiv_core_binary _ _ _ _ _ _) as [[mz ez] lz].
  apply binary_round_aux_sign. reflexivity.
Qed.

Lemma not_negative_ltb (x : float) :
  not_negative (Prim2SF x) -> (x <? 0)%float = false.
Proof.
  rewrite FloatAxioms.ltb_spec. change (Prim2SF 0) with (S754_zero false).
  unfold SFltb, SFcompare.
  destruct (Prim2SF x) as [s|s| |s m e]; cbn; intros; subst; reflexivity.
Qed.

Lemma refresh_fps_not_negative times old :
  not_negative (Prim2SF old) -> not_negative (Prim2SF (refresh_fps times old)).
Proof.
  intros H. unfold refresh_fps. destruct (_ <=? _)%nat; [|exact H].
  destruct (0 <? _)%float eqn:E; [|exact H].
  apply div_not_negative; [apply of_uint63_not_negative|exact E].
Qed.

Lemma positive_not_zero (d : float) :
  (0 <? d)%float = true -> (d =? 0)%float = false.
Proof.
  intros H. apply positive_spec in H. rewrite FloatAxioms.eqb_spec.
  change (Prim2SF 0) with (S754_zero false). unfold SFeqb, SFcompare.
  destruct (Prim2SF d) as [s|[]| |[] m e]; try contradiction; reflexivity.
Qed.

Section RateSign.
Context {I : Type} (P : adapter I).
Hypothesis refreshed : forall i st, success P i = true ->
  fps (step P i st) = refresh_fps (frame_times (step P i st)) (fps st).
Hypothesis dropped : forall i st, success P i = false -> step P i st = st.

Lemma run_rate_not_negative (inputs : list I) (st : VideoState) :
  not_negative (Prim2SF (fps st)) -> not_negative (Prim2SF (fps (run P inputs st))).
Proof.
  revert st. induction inputs as [|i inputs IH]; intros st H; [exact H|].
  cbn [run fold_left]. apply IH. destruct (success P i) eqn:E.
  - rewrite (refreshed _ _ E). apply refresh_fps_not_negative, H.
  - rewrite (dropped _ _ E). exact H.
Qed.
End RateSign.

(** X5.  The rate is never negative, whatever the clock does: in v1, v2 and
    v3, after any inputs from the initial state, [fps < 0] is false, also
    when [time.time()] steps back or stands still between frames. *)
Theorem rate_is_never_negative :
  (forall image (imencode : image -> Z -> bool * bytes) q inputs,
      (fps (run (v1_adapter imencode q) inputs video_state0) <? 0)%float = false) /\
  (forall encode_jpeg q inputs,
      (fps (run (v2_adapter encode_jpeg q) inputs video_state0) <? 0)%float = false) /\
  (forall encode_jpeg q inputs,
      (fps (run (v3_adapter encode_jpeg q) inputs video_state0) <? 0)%float = false).
Proof.
  split; [|split]; intros; apply not_negative_ltb, run_rate_not_negative;
    try reflexivity; cbn [step success v1_adapter v2_adapter v3_adapter];
    intros i st E.
  - destruct (v1_published imencode q i st E) as [jpeg ->]. reflexivity.
  - apply v1_dropped, E.
  - destruct (v2_published encode_jpeg q i st E) as (jpeg & w & h & ->). reflexivity.
  - apply v2_dropped, E.
  - destruct (v3_published encode_jpeg q i st E) as (jpeg & w & h & ->). reflexivity.
  - apply v3_dropped, E.
Qed.

(** X6.  What the callback answers tells what it did.  In v2 and v3 it
    answers OK exactly when it published a frame (frame id advanced by one);
    with any other answer the state is untouched.  In v4 it answers ERROR
    exactly when nothing was published; when it ends with an exception the
    frame has been published all the same, this was a 60th frame, and the
    two ends of the window coincide (the division of the rate report failed);
    with a window whose newest reading is above its oldest it never ends
    with an exception. *)
Theorem callback_answer_tells_publication :
  (forall encode_jpeg q p st,
      let r := V2.on_new_sample encode_jpeg q p st in
      (fst r = FlowOK /\ frame_id (snd r) = frame_id st + 1) \/
      (fst r <> FlowOK /\ snd r = st)) /\
  (forall encode_jpeg q p st,
      let r := V3.on_new_sample encode_jpeg q p st in
      (fst r = FlowOK /\ frame_id (snd r) = frame_id st + 1) \/
      (fst r <> FlowOK /\ snd r = st)) /\
  (forall p st,
      let r := V4.on_new_sample p st in
      let w := frame_times (snd r) in
      ((fst r = FlowERROR /\ snd r = st) \/
       (fst r <> FlowERROR /\ frame_id (snd r) = frame_id st + 1)) /\
      (fst r = FlowRaised ->
         (frame_id st + 1) mod 60 = 0 /\ (2 <= length w)%nat /\
         (Py.newest w - Py.first w =? 0)%float = true) /\
      ((0 <? Py.newest w - Py.first w)%float = true -> fst r <> FlowRaised)).
Proof.
  split; [|split].
  - intros encode_jpeg q p st. cbv zeta. unfold V2.on_new_sample.
    destruct (sample p) as [s|]; [|right; split; [discriminate|reflexivity]].
    destruct (map_success s); [|right; split; [discriminate|reflexivity]].
    destruct (encode_jpeg _ _ _ _); [left|right]; split;
      try reflexivity; discriminate.
  - intros encode_jpeg q p st. cbv zeta. unfold V3.on_new_sample.
    destruct (sample p) as [s|]; [|right; split; [discriminate|reflexivity]].
    destruct (map_success s); [|right; split; [discriminate|reflexivity]].
    destruct (encode_jpeg _ _ _ _); [left|right]; split;
      try reflexivity; discriminate.
  - intros p st. cbv zeta. unfold V4.on_new_sample.
    destruct (sample p) as [s|];
      [|split; [left; split; reflexivity|split; [discriminate|discriminate]]].
    destruct (map_success s);
      [|split; [left; split; reflexivity|split; [discriminate|discriminate]]].
    set (st' := V4.store (map_data s) (time1 p) (time2 p) st).
    assert (Hid : frame_id st' = frame_id st + 1) by reflexivity.
    destruct (Z.eqb_spec (frame_id st' mod 60) 0) as [H60|H60];
      [|split; [right; split; [discriminate|exact Hid]
               |split; [discriminate|discriminate]]].
    unfold V4.window_rate.
    destruct (Nat.leb_spec 2 (length (frame_times st'))) as [Hw|Hw];
      [|split; [right; split; [discriminate|exact Hid]
               |split; [discriminate|discriminate]]].
    destruct (_ =? 0)%float eqn:Hz; cbn [fst snd].
    + split; [right; split; [discriminate|exact Hid]|]. split.
      * intros _. rewrite <- Hid. auto.
      * intros Hpos. apply positive_not_zero in Hpos. congruence.
    + split; [right; split; [discriminate|exact Hid]|].
      split; [discriminate|discriminate].
Qed.
(** ** Sessions: ending and staying *)

Lemma registered_after_cons ws a tr b :
  registered_after ws (a :: tr) b
  = registered_after ws tr
      match a with
      | Add c => if Pos.eqb c ws then true else b
      | Discard c => if Pos.eqb c ws then false else b
      | _ => b
      end.
Proof. reflexivity. Qed.







(** A v1 session whose second frame cannot be sent: nothing follows the
    failed send but the removal from the registry. *)
Example v1_session_ends_at_failed_send :
  after_failed_send
    (V1.handle_client 7 true Delivered
       [sees 1; {| seen := slot 2 [Byte.xff]; outcome := ConnectionClosed |}; sees 3])
  = Some [Discard 7].
Proof. reflexivity. Qed.

(** X8.  A session whose sends all go through stays registered: after any
    number of turns the connection is still in [connected_clients] (for v3
    and v4, as long as the header of each snapshot can be built). *)
Theorem delivered_session_stays_registered (ws : websocket) (polls : list poll) :
  Forall (fun p => outcome p = Delivered) polls ->
  (forall is_connected,
      registered_after ws (V1.handle_client ws is_connected Delivered polls) false = true) /\
  registered_after ws (V2.handle_client ws polls) false = true /\
  (Forall (fun p => v3_packable (seen p) = true) polls ->
     registered_after ws (V3.handle_client ws polls) false = true) /\
  (Forall (fun p => v4_packable (seen p) = true) polls ->
     registered_after ws (V4.handle_client ws polls) false = true).
Proof.
  intros Hd. split; [|split; [|split]].
  - intros is_connected. unfold V1.handle_client.
    rewrite !registered_after_cons, Pos.eqb_refl. generalize (-1).
    induction Hd as [|p rest Hp _ IH]; intros last; [reflexivity|].
    cbn [V1.session_loop]. rewrite !registered_after_cons.
    destruct (last <? frame_id (seen p)); [destruct (latest_frame (seen p))|];
      rewrite ?Hp, !registered_after_cons; apply IH.
  - unfold V2.handle_client. rewrite registered_after_cons, Pos.eqb_refl.
    generalize (-1).
    induction Hd as [|p rest Hp _ IH]; intros last; [reflexivity|].
    cbn [V2.session_loop]. rewrite !registered_after_cons.
    destruct (latest_frame (seen p)); [destruct (frame_id (seen p) =? last)|];
      rewrite ?Hp, !registered_after_cons; apply IH.
  - intros Hk. unfold V3.handle_client. rewrite registered_after_cons, Pos.eqb_refl.
    generalize (-1). revert Hk.
    induction Hd as [|p rest Hp _ IH]; intros Hk last; [reflexivity|].
    apply Forall_cons_iff in Hk as [Hk1 Hk]. unfold v3_packable in Hk1.
    cbn [V3.session_loop]. rewrite !registered_after_cons.
    destruct (latest_frame (seen p)); [destruct (frame_id (seen p) =? last)|];
      rewrite ?registered_after_cons; try (apply IH; exact Hk).
    destruct (Struct.pack_Idf _ _ _); [discriminate|].
    rewrite Hp, !registered_after_cons. apply IH; exact Hk.
  - intros Hk. unfold V4.handle_client. rewrite registered_after_cons, Pos.eqb_refl.
    generalize (-1). revert Hk.
    induction Hd as [|p rest Hp _ IH]; intros Hk last; [reflexivity|].
    apply Forall_cons_iff in Hk as [Hk1 Hk]. unfold v4_packable in Hk1.
    cbn [V4.session_loop]. rewrite !registered_after_cons.
    destruct (latest_frame (seen p)) as [frame_data|];
      rewrite ?registered_after_cons; try (apply IH; exact Hk).
    destruct (Py.truthy (Some frame_data) && negb (frame_id (seen p) =? last));
      rewrite ?registered_after_cons; try (apply IH; exact Hk).
    destruct (Struct.pack_Idf _ _ _); [discriminate|].
    rewrite Hp, !registered_after_cons. apply IH; exact Hk.
Qed.

Lemma delivered_session_stays_registered_witness :
  Forall (fun p => outcome p = Delivered) [sees 1; sees 1; sees 4] /\
  registered_after 7 (V2.handle_client 7 [sees 1; sees 1; sees 4]) false = true.
Proof.
  assert (H : Forall (fun p => outcome p = Delivered) [sees 1; sees 1; sees 4])
    by (repeat constructor).
  split; [exact H|].
  exact (proj1 (proj2 (delivered_session_stays_registered 7 [sees 1; sees 1; sees 4] H))).
Defined.
(** ** Sessions: what is sent *)

Lemma Forall_built_weaken {A} (P Q : A -> Prop) (l : list A) :
  (forall x, P x -> Q x) -> Forall P l -> Forall Q l.
Proof. intros H F. induction F; constructor; auto. Qed.

Lemma v1_loop_built ws polls : forall last,
  Forall (v1_built_from polls) (sends_to ws (V1.session_loop ws last polls)).
Proof.
  induction polls as [|p rest IH]; intros last; [constructor|].
  assert (W : forall m, v1_built_from rest m -> v1_built_from (p :: rest) m).
  { intros m (p' & fd & Hin & Hf & ->). exists p', fd. repeat split; auto. now right. }
  cbn [V1.session_loop sends_to].
  destruct (last <? frame_id (seen p)); [destruct (latest_frame (seen p)) as [fd|] eqn:Hf|];
    cbn [sends_to]; try (apply (Forall_built_weaken _ _ _ W), IH).
  rewrite Pos.eqb_refl. constructor.
  - exists p, fd. repeat split; auto. now left.
  - destruct (outcome p); [apply (Forall_built_weaken _ _ _ W), IH| |];
      rewrite v1_closing_silent; constructor.
Qed.

Lemma v2_loop_built ws polls : forall last,
  Forall (v2_built_from polls) (sends_to ws (V2.session_loop ws last polls)).
Proof.
  induction polls as [|p rest IH]; intros last; [constructor|].
  assert (W : forall m, v2_built_from rest m -> v2_built_from (p :: rest) m).
  { intros m (p' & fd & Hin & Hf & ->). exists p', fd. repeat split; auto. now right. }
  cbn [V2.session_loop sends_to].
  destruct (latest_frame (seen p)) as [fd|] eqn:Hf; [destruct (frame_id (seen p) =? last)|];
    cbn [sends_to]; try (apply (Forall_built_weaken _ _ _ W), IH).
  rewrite Pos.eqb_refl. constructor.
  - exists p, fd. repeat split; auto. now left.
  - destruct (outcome p); [apply (Forall_built_weaken _ _ _ W), IH| |]; constructor.
Qed.

(** X9.  No mixing of snapshots in the JSON variants: every frame message a
    v1 or v2 session sends carries the frame id, timestamp, rate, size and
    payload of one and the same reading of the shared state; a v1 session
    sends nothing else but its initial status. *)
Theorem json_frames_come_from_one_snapshot (ws : websocket) (polls : list poll) :
  (forall is_connected r0,
      Forall (fun m => m = V1.initial_status is_connected \/ v1_built_from polls m)
             (sends_to ws (V1.handle_client ws is_connected r0 polls))) /\
  Forall (v2_built_from polls) (sends_to ws (V2.handle_client ws polls)).
Proof.
  split.
  - intros is_connected r0. unfold V1.handle_client. cbn [sends_to].
    rewrite Pos.eqb_refl. constructor; [now left|].
    destruct r0; [|rewrite v1_closing_silent; constructor..].
    eapply Forall_built_weaken; [|apply v1_loop_built]. intros m H. now right.
  - unfold V2.handle_client. cbn [sends_to]. apply v2_loop_built.
Qed.

Lemma unpack_pack (a : Z) (b c : float) (header payload : bytes) :
  Struct.pack_Idf a b c = inr header ->
  decode_frame (Binary (header ++ payload)) = Some (a, b, through_single c, payload).
Proof.
  intros H. pose proof (pack_Idf_length _ _ _ _ H) as L.
  apply pack_Idf_inv in H as [R E]. unfold decode_frame, through_single.
  rewrite List.firstn_app_l by (symmetry; exact L).
  rewrite List.skipn_app_r by (symmetry; exact L).
  unfold Struct.unpack_Idf. rewrite L, Nat.eqb_refl. subst header.
  assert (L4 : length (le_split 4 a) = 4%nat) by apply length_le_split.
  assert (L8 : length (le_split 8 (Struct.double_bits b)) = 8%nat)
    by apply length_le_split.
  rewrite List.firstn_app_l by (symmetry; exact L4).
  rewrite List.skipn_app_r by (symmetry; exact L4).
  rewrite List.firstn_app_l by (symmetry; exact L8).
  rewrite app_assoc, List.skipn_app_r by (rewrite length_app, L4, L8; reflexivity).
  rewrite !le_combine_split.
  change (2 ^ (Z.of_nat 4 * 8)) with (2 ^ 32).
  change (2 ^ (Z.of_nat 8 * 8)) with (2 ^ 64).
  rewrite (Z.mod_small a) by lia.
  rewrite (Z.mod_small (Struct.double_bits b)) by apply double_bits_range.
  rewrite double_roundtrip. reflexivity.
Qed.

Lemma v3_loop_decodes ws polls : forall last,
  Forall (v3_decodes_to polls) (sends_to ws (V3.session_loop ws last polls)).
Proof.
  induction polls as [|p rest IH]; intros last; [constructor|].
  assert (W : forall m, v3_decodes_to rest m -> v3_decodes_to (p :: rest) m).
  { intros m (p' & fd & Hin & Hf & E). exists p', fd. repeat split; auto. now right. }
  cbn [V3.session_loop sends_to].
  destruct (latest_frame (seen p)) as [fd|] eqn:Hf; [destruct (frame_id (seen p) =? last)|];
    cbn [sends_to]; try (apply (Forall_built_weaken _ _ _ W), IH).
  destruct (Struct.pack_Idf _ _ _) as [e|header] eqn:E; cbn [sends_to]; [constructor|].
  rewrite Pos.eqb_refl. constructor.
  - exists p, fd. split; [now left|]. split; [exact Hf|]. apply unpack_pack, E.
  - destruct (outcome p); [apply (Forall_built_weaken _ _ _ W), IH| |]; constructor.
Qed.

Lemma zero_through_single : through_single 0 = 0%float.
Proof. vm_compute. reflexivity. Qed.

Lemma v4_loop_decodes ws polls : forall last,
  Forall (v4_decodes_to polls) (sends_to ws (V4.session_loop ws last polls)).
Proof.
  induction polls as [|p rest IH]; intros last; [constructor|].
  assert (W : forall m, v4_decodes_to rest m -> v4_decodes_to (p :: rest) m).
  { intros m (p' & fd & Hin & Hf & Hn & E). exists p', fd. repeat split; auto.
    now right. }
  cbn [V4.session_loop sends_to].
  destruct (latest_frame (seen p)) as [frame_data|] eqn:Hf; cbn [sends_to];
    [|apply (Forall_built_weaken _ _ _ W), IH].
  destruct frame_data as [|x frame_data];
    [cbn [Py.truthy andb sends_to]; apply (Forall_built_weaken _ _ _ W), IH|].
  cbn [Py.truthy andb].
  destruct (negb (frame_id (seen p) =? last)); cbn [sends_to];
    [|apply (Forall_built_weaken _ _ _ W), IH].
  destruct (Struct.pack_Idf _ _ _) as [e|header] eqn:E; cbn [sends_to]; [constructor|].
  rewrite Pos.eqb_refl. constructor.
  - exists p, (x :: frame_data). split; [now left|]. split; [exact Hf|].
    split; [discriminate|]. rewrite (unpack_pack _ _ _ _ _ E), zero_through_single.
    reflexivity.
  - destruct (outcome p); [apply (Forall_built_weaken _ _ _ W), IH| |]; constructor.
Qed.

(** X10.  What a consumer decodes from a binary frame message.  Every message
    a v3 or v4 session sends splits into a 16-byte header and a payload that
    come from one and the same reading of the shared state: the header reads
    back as that reading's frame id and its exact timestamp, the rest is its
    payload, byte for byte.  The rate field is the reading's rate rounded to
    single precision in v3 and always 0.0 in v4; a v4 message never has an
    empty payload. *)
Theorem binary_frames_decode_to_one_snapshot (ws : websocket) (polls : list poll) :
  Forall (v3_decodes_to polls) (sends_to ws (V3.handle_client ws polls)) /\
  Forall (v4_decodes_to polls) (sends_to ws (V4.handle_client ws polls)).
Proof.
  split.
  - unfold V3.handle_client. cbn [sends_to]. apply v3_loop_decodes.
  - unfold V4.handle_client. cbn [sends_to]. apply v4_loop_decodes.
Qed.
(** ** Sessions: waiting and catching up *)

(** X11.  No frame is sent twice and none is made up: as long as every turn
    reads the version already sent, or an empty slot, a session loop sends
    nothing (it only takes the lock, releases it and sleeps).  This holds in
    all four variants, from any [last_frame_id]. *)
Theorem session_idle_without_new_frame (ws : websocket) (last : Z) (polls : list poll) :
  Forall (nothing_new last) polls ->
  sends_to ws (V1.session_loop ws last polls) = [] /\
  sends_to ws (V2.session_loop ws last polls) = [] /\
  sends_to ws (V3.session_loop ws last polls) = [] /\
  sends_to ws (V4.session_loop ws last polls) = [].
Proof.
  intros H. induction H as [|p rest Hp _ (IH1 & IH2 & IH3 & IH4)];
    [repeat split|].
  assert (Hskip : (frame_id (seen p) =? last) = true \/ latest_frame (seen p) = None).
  { destruct Hp as [->|Hn]; [left; apply Z.eqb_refl|right; exact Hn]. }
  repeat split.
  - cbn [V1.session_loop sends_to].
    destruct (Z.ltb_spec last (frame_id (seen p))) as [Hlt|Hge];
      [destruct (latest_frame (seen p)) eqn:Hf|]; cbn [sends_to]; try exact IH1.
    destruct Hp as [E|E]; [lia|congruence].
  - cbn [V2.session_loop sends_to].
    destruct Hskip as [E|E]; rewrite E;
      [destruct (latest_frame (seen p))|]; exact IH2.
  - cbn [V3.session_loop sends_to].
    destruct Hskip as [E|E]; rewrite E;
      [destruct (latest_frame (seen p))|]; exact IH3.
  - cbn [V4.session_loop sends_to].
    destruct Hskip as [E|E]; rewrite E;
      [destruct (latest_frame (seen p)) as [[|x fd]|]|]; cbn [Py.truthy andb negb sends_to];
      exact IH4.
Qed.

Lemma session_idle_without_new_frame_witness :
  Forall (nothing_new 3) [sees 3; waiting; sees 3] /\
  sends_to 7 (V3.session_loop 7 3 [sees 3; waiting; sees 3]) = [].
Proof.
  assert (H : Forall (nothing_new 3) [sees 3; waiting; sees 3]).
  { constructor; [left; reflexivity|]. constructor; [right; reflexivity|].
    constructor; [left; reflexivity|]. constructor. }
  split; [exact H|].
  exact (proj1 (proj2 (proj2
           (session_idle_without_new_frame 7 3 [sees 3; waiting; sees 3] H)))).
Defined.

Lemma pack_header_in_range (a : Z) (b : float) :
  0 <= a < 2 ^ 32 -> exists header, Struct.pack_Idf a b 0 = inr header.
Proof.
  intros H. unfold Struct.pack_Idf, Struct.pack_I, Struct.pack_d.
  destruct (Z.leb_spec 0 a); [|lia].
  destruct (Z.leb_spec a 4294967295); [|lia]. cbn [andb].
  change (Struct.pack_f 0) with (@inr exn bytes [Byte.x00; Byte.x00; Byte.x00; Byte.x00]).
  eauto.
Qed.

(** X12.  Latest wins within one turn: a turn that reads a non-empty frame
    whose id is above [last_frame_id] (and fits the 32-bit field) sends that
    very frame, whatever ids were published and skipped in between: the v1
    and v2 loops send its JSON message, the v4 loop a binary message that
    decodes to it, and so does the v3 loop when the rate fits the header. *)
Theorem new_frame_is_sent_in_one_turn
    (ws : websocket) (last : Z) (p : poll) (rest : list poll) (frame_data : bytes) :
  latest_frame (seen p) = Some frame_data -> frame_data <> [] ->
  -1 <= last < frame_id (seen p) -> frame_id (seen p) < 2 ^ 32 ->
  hd_error (sends_to ws (V1.session_loop ws last (p :: rest)))
  = Some (V1.frame_message (seen p) frame_data) /\
  hd_error (sends_to ws (V2.session_loop ws last (p :: rest)))
  = Some (V2.frame_message (seen p) frame_data) /\
  (v3_packable (seen p) = true ->
   exists m, hd_error (sends_to ws (V3.session_loop ws last (p :: rest))) = Some m /\
             decode_frame m
             = Some (frame_id (seen p), timestamp (seen p),
                     through_single (fps (seen p)), frame_data)) /\
  (exists m, hd_error (sends_to ws (V4.session_loop ws last (p :: rest))) = Some m /\
             decode_frame m
             = Some (frame_id (seen p), timestamp (seen p), 0%float, frame_data)).
Proof.
  intros Hf Hne Hl Hr.
  assert (Hneq : (frame_id (seen p) =? last) = false) by (apply Z.eqb_neq; lia).
  assert (Hlt : (last <? frame_id (seen p)) = true) by (apply Z.ltb_lt; lia).
  split; [|split; [|split]].
  - cbn [V1.session_loop sends_to]. rewrite Hlt, Hf. cbn [sends_to].
    rewrite Pos.eqb_refl. reflexivity.
  - cbn [V2.session_loop sends_to]. rewrite Hf, Hneq. cbn [sends_to].
    rewrite Pos.eqb_refl. reflexivity.
  - unfold v3_packable. intros Hk.
    cbn [V3.session_loop sends_to]. rewrite Hf, Hneq. cbn [sends_to].
    destruct (Struct.pack_Idf _ _ _) as [e|header] eqn:E; [discriminate|].
    cbn [sends_to]. rewrite Pos.eqb_refl. eexists. split; [reflexivity|].
    apply unpack_pack, E.
  - destruct (pack_header_in_range (frame_id (seen p)) (timestamp (seen p)))
      as [header E]; [lia|].
    cbn [V4.session_loop sends_to]. rewrite Hf.
    destruct frame_data as [|x frame_data]; [contradiction|].
    cbn [Py.truthy andb]. rewrite Hneq. cbn [negb]. rewrite E. cbn [sends_to].
    rewrite Pos.eqb_refl. eexists. split; [reflexivity|].
    rewrite (unpack_pack _ _ _ _ _ E), zero_through_single. reflexivity.
Qed.

Lemma new_frame_is_sent_in_one_turn_witness :
  -1 <= 2 < frame_id (seen (sees 9)) /\
  hd_error (sends_to 7 (V1.session_loop 7 2 [sees 9; sees 9]))
  = Some (V1.frame_message (seen (sees 9)) [Byte.xff]).
Proof.
  assert (H : -1 <= 2 < frame_id (seen (sees 9))) by (cbn; lia).
  split; [exact H|].
  refine (proj1 (new_frame_is_sent_in_one_turn 7 2 (sees 9) [sees 9] [Byte.xff]
                   eq_refl _ H _)).
  - discriminate.
  - cbn. lia.
Defined.
(** ** Lock and broadcast *)





(** X14.  The v1 and v4 session loops, and both broadcasters, keep every
    sleep and every send outside the critical section: on all their traces
    the lock is free at each suspension. *)
Theorem v1_v4_suspend_with_lock_free (ws : websocket) (polls : list poll) :
  (forall is_connected r0,
      suspends_unlocked false (V1.handle_client ws is_connected r0 polls) = true) /\
  suspends_unlocked false (V4.handle_client ws polls) = true /\
  (forall ticks,
      suspends_unlocked false (V1.broadcast_status ticks) = true /\
      suspends_unlocked false (V2.broadcast_status ticks) = true).
Proof.
  split; [|split].
  - intros. apply v1_session_suspends_unlocked.
  - apply v4_session_suspends_unlocked.
  - apply broadcasters_suspend_unlocked.
Qed.

Lemma fan_out_skips (ws : websocket) (m : message) (res : websocket -> send_result)
    (l : list websocket) :
  ws ∉ l -> sends_to ws (map (fun c => Send c m (res c)) l) = [].
Proof.
  induction l as [|c l IH]; intros Hn; [reflexivity|].
  apply not_elem_of_cons in Hn as [Hne Hn]. cbn [map sends_to].
  destruct (Pos.eqb_spec c ws); [congruence|]. apply IH, Hn.
Qed.

Lemma v2_tick_sends (ws : websocket) (t : tick) :
  sends_to ws (V2.broadcast_tick t)
  = if registered_at ws t then [V2.status_message (at_tick t) (registry t)] else [].
Proof.
  unfold V2.broadcast_tick, registered_at. cbn [sends_to].
  destruct (bool_decide_reflect (ws ∈ registry t)) as [Hin|Hout].
  - rewrite bool_decide_eq_false_2
      by (intros E; rewrite E in Hin; apply elem_of_empty in Hin; exact Hin).
    apply fan_out_sends; [apply NoDup_elements|apply elem_of_elements, Hin].
  - destruct (bool_decide _); [reflexivity|].
    apply fan_out_skips. rewrite elem_of_elements. exact Hout.
Qed.

Lemma v1_tick_sends (ws : websocket) (t : tick) :
  sends_to ws (V1.broadcast_tick t)
  = if registered_at ws t then [V1.status_message (at_tick t) (registry t)] else [].
Proof.
  unfold V1.broadcast_tick, V1.broadcast, registered_at.
  rewrite sends_to_app, app_nil_r.
  destruct (bool_decide_reflect (ws ∈ registry t)) as [Hin|Hout].
  - rewrite bool_decide_eq_false_2
      by (intros E; rewrite E in Hin; apply elem_of_empty in Hin; exact Hin).
    apply fan_out_sends; [apply NoDup_elements|apply elem_of_elements, Hin].
  - destruct (bool_decide _); [reflexivity|].
    apply fan_out_skips. rewrite elem_of_elements. exact Hout.
Qed.

(** X15.  What the status broadcaster sends to one connection over time: in
    v1 and v2 alike, exactly one status message for each tick at which the
    connection is registered, in order, each built from the state and the
    registry of its own tick; nothing at a tick where the registry is empty
    or does not hold the connection.  The broadcaster sleeps once per tick
    whether or not it sends. *)
Theorem broadcaster_sends_one_status_per_tick (ws : websocket) (ticks : list tick) :
  sends_to ws (V1.broadcast_status ticks)
  = map (fun t => V1.status_message (at_tick t) (registry t))
        (List.filter (registered_at ws) ticks) /\
  sends_to ws (V2.broadcast_status ticks)
  = map (fun t => V2.status_message (at_tick t) (registry t))
        (List.filter (registered_at ws) ticks) /\
  length (List.filter is_sleep (V1.broadcast_status ticks)) = length ticks /\
  length (List.filter is_sleep (V2.broadcast_status ticks)) = length ticks.
Proof.
  unfold V1.broadcast_status, V2.broadcast_status.
  induction ticks as [|t ticks (IH1 & IH2 & IH3 & IH4)]; [repeat split|].
  cbn [map concat List.filter]. rewrite !sends_to_app, !List.filter_app, !length_app.
  rewrite IH1, IH2, IH3, IH4, v1_tick_sends, v2_tick_sends.
  assert (S1 : length (List.filter is_sleep (V1.broadcast_tick t)) = 1%nat).
  { unfold V1.broadcast_tick, V1.broadcast. rewrite List.filter_app, length_app.
    destruct (bool_decide _); [reflexivity|].
    induction (elements (registry t)) as [|c l IHl]; [reflexivity|exact IHl]. }
  assert (S2 : length (List.filter is_sleep (V2.broadcast_tick t)) = 1%nat).
  { unfold V2.broadcast_tick. cbn [List.filter is_sleep length]. f_equal.
    destruct (bool_decide _); [reflexivity|].
    induction (elements (registry t)) as [|c l IHl]; [reflexivity|exact IHl]. }
  rewrite S1, S2. destruct (registered_at ws t); repeat split.
Qed.

(** Session 3 over three ticks, the middle one with an empty registry: two
    status messages, three sleeps. *)
Example three_ticks_two_messages :
  length (sends_to 3 (V2.broadcast_status three_ticks)) = 2%nat /\
  length (List.filter is_sleep (V2.broadcast_status three_ticks)) = 3%nat.
Proof. split; vm_compute; reflexivity. Qed.
(** ** Wire codec: when the header can be built *)



(** The rates at the edge: plus infinity and NaN are packed, 1e39 is
    refused, and a negative id is refused before the rate is looked at. *)
Example header_edge_cases :
  (exists h, Struct.pack_Idf 1 1700000000.5 infinity = inr h) /\
  (exists h, Struct.pack_Idf 1 nan nan = inr h) /\
  Struct.pack_Idf 1 1700000000.5 1e39 = inl OverflowError /\
  Struct.pack_Idf (-1) 1700000000.5 1e39 = inl StructError.
Proof. repeat split; try (eexists; vm_compute; reflexivity); vm_compute; reflexivity. Qed.
(** ** Start-up: the other paths *)

(** X17.  When the video source starts, v2, v3 and v4 install the signal
    handlers and enter the serving loop on the requested port as their last
    step, without any exit; nothing is served before the source has
    started. *)
Theorem started_source_leads_to_serving
    (port : Z) (pipeline_str : string) (env : gst_env) :
  cannot_start env = false ->
  (exists before, V2.main port pipeline_str env = before ++ [Handlers; Serve port] /\
                  ~ serves before /\ ~ exits (V2.main port pipeline_str env)) /\
  (exists before, V3.main port pipeline_str env = before ++ [Handlers; Serve port] /\
                  ~ serves before /\ ~ exits (V3.main port pipeline_str env)) /\
  (exists before, V4.main port pipeline_str env = before ++ [Handlers; Serve port] /\
                  ~ serves before /\ ~ exits (V4.main port pipeline_str env)).
Proof.
  unfold cannot_start. intros H.
  destruct (launch_error env) eqn:El; [discriminate|].
  split; [|split].
  - unfold V2.main, V2.start. rewrite El, H.
    eexists [_; _; _; _]. split; [reflexivity|]. split.
    + intros [p Hp]. cbn [In] in Hp. repeat (destruct Hp as [Hp|Hp]; [discriminate|]).
      exact Hp.
    + intros [code Hc]. cbn [In app] in Hc.
      repeat (destruct Hc as [Hc|Hc]; [discriminate|]). exact Hc.
  - unfold V3.main, V3.start. rewrite El, H.
    eexists [_; _; _; _]. split; [reflexivity|]. split.
    + intros [p Hp]. cbn [In] in Hp. repeat (destruct Hp as [Hp|Hp]; [discriminate|]).
      exact Hp.
    + intros [code Hc]. cbn [In app] in Hc.
      repeat (destruct Hc as [Hc|Hc]; [discriminate|]). exact Hc.
  - unfold V4.main, V4.start. rewrite El, H.
    eexists [_; _; _]. split; [reflexivity|]. split.
    + intros [p Hp]. cbn [In] in Hp. repeat (destruct Hp as [Hp|Hp]; [discriminate|]).
      exact Hp.
    + intros [code Hc]. cbn [In app] in Hc.
      repeat (destruct Hc as [Hc|Hc]; [discriminate|]). exact Hc.
Qed.

Lemma started_source_leads_to_serving_witness :
  cannot_start healthy = false /\
  V4.main 9000 "udpsrc ! appsink" healthy
  = [StartThread "glib_main"; Pause 0.3;
     Log ("[GStreamer] Pipeline:" ++ nl ++ "udpsrc ! appsink" ++ nl)%string;
     Handlers; Serve 9000] /\
  ~ exits (V4.main 9000 "udpsrc ! appsink" healthy).
Proof.
  split; [reflexivity|]. split; [reflexivity|].
  destruct (proj2 (proj2
              (started_source_leads_to_serving 9000 "udpsrc ! appsink" healthy eq_refl)))
    as (before & _ & _ & H).
  exact H.
Defined.

Lemma wait_for_video_spec (n k : nat) (connected_at : nat -> bool) :
  let evs := fst (V1.wait_for_video n k connected_at) in
  let k' := snd (V1.wait_for_video n k connected_at) in
  (length evs <= n)%nat /\
  (forall j, (j < length evs)%nat -> connected_at (k + j)%nat = false) /\
  ((length evs < n)%nat -> connected_at (k + length evs)%nat = true) /\
  k' = (if (length evs <? n)%nat then S (k + length evs) else k + length evs)%nat.
Proof.
  revert k. induction n as [|n IH]; intros k; cbn [V1.wait_for_video].
  - cbn [fst snd length]. rewrite Nat.add_0_r.
    split; [lia|]. split; [intros j Hj; lia|]. split; [intros Hl; lia|reflexivity].
  - destruct (connected_at k) eqn:E.
    + cbn [fst snd length]. rewrite Nat.add_0_r.
      split; [lia|]. split; [intros j Hj; lia|]. split; [intros _; exact E|reflexivity].
    + specialize (IH (S k)). destruct (V1.wait_for_video n (S k) connected_at)
        as [evs k'']. cbn [fst snd length] in *.
      destruct IH as (L & F & T & K). repeat split.
      * lia.
      * intros [|j] Hj; [rewrite Nat.add_0_r; exact E|].
        replace (k + S j)%nat with (S k + j)%nat by lia. apply F. lia.
      * intros Hl. replace (k + S (length evs))%nat with (S k + length evs)%nat by lia.
        apply T. lia.
      * rewrite K. change (S (length evs) <? S n)%nat with (length evs <? n)%nat.
        destruct (length evs <? n)%nat; lia.
Qed.

(** X18.  How long v1 waits for the video.  The main thread sleeps 0.1 s
    after each read of [video_state.connected] that finds it unset and stops
    at the first read that finds it set, 50 sleeps at most: the number of
    sleeps is the position of the first such read, or 50.  It then reads the
    flag once more, and the warning is printed exactly when that last read
    finds the flag unset. *)
Theorem v1_waits_until_connected_or_fifty (port : Z) (connected_at : nat -> bool) :
  let tr := V1.main port connected_at in
  let n := pauses tr in
  (n <= 50)%nat /\
  (forall j, (j < n)%nat -> connected_at j = false) /\
  ((n < 50)%nat -> connected_at n = true) /\
  (In v1_warning tr <-> connected_at (if (n <? 50)%nat then S n else n) = false).
Proof.
  cbv zeta. unfold V1.main, pauses.
  pose proof (wait_for_video_spec 50 0 connected_at) as H.
  pose proof (wait_for_video_pauses 50 0 connected_at) as Hp.
  destruct (V1.wait_for_video 50 0 connected_at) as [waiting k].
  cbn [fst snd] in H, Hp. destruct H as (L & F & T & K).
  assert (Hc : List.filter is_pause waiting = waiting).
  { clear -Hp. induction Hp as [|e l -> _ IH]; [reflexivity|].
    cbn [List.filter is_pause]. f_equal. exact IH. }
  assert (Hn : length (List.filter is_pause
                 (StartThread "video_capture_thread"
                  :: Log "[Main] Waiting for video stream..."
                  :: waiting ++ (if connected_at k then [] else [v1_warning]) ++ [Serve port]))
               = length waiting).
  { cbn [List.filter is_pause]. rewrite List.filter_app, Hc, length_app.
    destruct (connected_at k); cbn; lia. }
  change (Log "[Main] WARNING: Video not connected yet, but starting WebSocket server anyway")
    with v1_warning.
  rewrite Hn. cbn [Nat.add] in F, T, K. split; [exact L|]. split; [exact F|].
  split; [exact T|]. rewrite <- K. split.
  - intros [Hi|[Hi|Hi]]; try discriminate.
    apply in_app_or in Hi as [Hi|Hi].
    + rewrite List.Forall_forall in Hp. apply Hp in Hi. discriminate.
    + destruct (connected_at k); [|reflexivity].
      destruct Hi as [Hi|[]]. discriminate.
  - intros E. rewrite E. right. right. apply in_or_app. right. left. reflexivity.
Qed.

(** A capture that connects while the main thread is in its third sleep:
    three sleeps, no warning. *)
Example v1_connects_after_three_sleeps :
  let tr := V1.main 9000 (fun k => (3 <=? k)%nat) in
  pauses tr = 3%nat /\ List.last tr (Log "") = Serve 9000 /\
  length tr = 6%nat.
Proof. repeat split. Qed.
(** ** Frames and status messages on one transport *)

Lemma interleaved_frame_ids (xs ys zs : list message) :
  interleaved xs ys zs -> Forall status_only ys -> frame_ids zs = frame_ids xs.
Proof.
  induction 1 as [|x xs ys zs _ IH|y xs ys zs _ IH]; intros Hy; [reflexivity| |].
  - cbn [frame_ids]. rewrite (IH Hy). reflexivity.
  - apply Forall_cons_iff in Hy as [[_ Hf] Hy]. cbn [frame_ids].
    unfold is_frame in Hf. destruct (frame_id_of y); [discriminate|]. apply IH, Hy.
Qed.

Lemma interleaved_all_left_then_right {A} (xs ys : list A) :
  interleaved xs ys (xs ++ ys).
Proof.
  induction xs as [|x xs IH]; cbn [app].
  - induction ys as [|y ys IH]; constructor; exact IH.
  - constructor. exact IH.
Qed.

Lemma v2_broadcast_sends_status ws (ticks : list tick) :
  Forall status_only (sends_to ws (V2.broadcast_status ticks)).
Proof.
  unfold V2.broadcast_status.
  induction ticks as [|t ticks IH]; [constructor|].
  cbn [map concat]. rewrite sends_to_app, v2_tick_sends. apply Forall_app.
  split; [|exact IH]. destruct (registered_at ws t); repeat constructor.
Qed.

(** X19.  Status broadcasts do not disturb the frames.  On a v1 or v2
    transport the session's messages and the broadcaster's messages arrive
    interleaved in some order; in every such order the frame ids a consumer
    reads off the stream are exactly the ones the session sent, in the same
    order, hence strictly increasing whenever the versions the session read
    never decreased. *)
Theorem broadcasts_keep_frame_order
    (ws : websocket) (polls : list poll) (ticks : list tick) :
  StronglySorted Z.le (versions polls) ->
  (forall is_connected r0 merged,
      interleaved (sends_to ws (V1.handle_client ws is_connected r0 polls))
                  (sends_to ws (V1.broadcast_status ticks)) merged ->
      frame_ids merged = sent_ids ws (V1.handle_client ws is_connected r0 polls) /\
      StronglySorted Z.lt (frame_ids merged)) /\
  (forall merged,
      interleaved (sends_to ws (V2.handle_client ws polls))
                  (sends_to ws (V2.broadcast_status ticks)) merged ->
      frame_ids merged = sent_ids ws (V2.handle_client ws polls) /\
      StronglySorted Z.lt (frame_ids merged)).
Proof.
  intros Hs. split.
  - intros is_connected r0 merged Hm.
    assert (E : frame_ids merged = sent_ids ws (V1.handle_client ws is_connected r0 polls))
      by exact (interleaved_frame_ids _ _ _ Hm (v1_broadcast_sends_status ws ticks)).
    split; [exact E|]. rewrite E, v1_handle_client_emits.
    destruct r0; try constructor. apply v1_emitted_increasing_always.
  - intros merged Hm.
    assert (E : frame_ids merged = sent_ids ws (V2.handle_client ws polls))
      by exact (interleaved_frame_ids _ _ _ Hm (v2_broadcast_sends_status ws ticks)).
    split; [exact E|]. rewrite E. unfold V2.handle_client.
    change (sent_ids ws (Add ws :: ?tr)) with (sent_ids ws tr).
    rewrite v2_session_emits. apply (emitted_increasing _ v2_verdict_new), Hs.
Qed.

Lemma broadcasts_keep_frame_order_witness :
  StronglySorted Z.le (versions [sees 1; sees 2]) /\
  frame_ids (sends_to 3 (V2.handle_client 3 [sees 1; sees 2])
             ++ sends_to 3 (V2.broadcast_status three_ticks)) = [1; 2].
Proof.
  assert (H : StronglySorted Z.le (versions [sees 1; sees 2])).
  { repeat constructor; cbn; lia. }
  split; [exact H|].
  rewrite (proj1 (proj2 (broadcasts_keep_frame_order 3 [sees 1; sees 2] three_ticks H)
                   _ (interleaved_all_left_then_right _ _))).
  reflexivity.
Defined.
